(** * Transcript parsing of smtp_lib: src/smtp_lib/parse/transcript.py

    A shallow embedding of [parse_transcript] and of the fragment of
    Python's [re] and [str] machinery it relies on.

    Characters are Unicode code points ([N]); a Python [str] is a
    [list N].  Regular expressions are embedded as a small syntax with a
    backtracking, continuation-passing matcher that follows the
    semantics of CPython's [sre] engine for the constructs used by the
    five patterns of the module: character classes, greedy bounded or
    unbounded repetition of a class, greedy optional groups, named
    groups and [$] without MULTILINE. *)

From Stdlib Require Import NArith Arith List String Ascii Bool Lia.
Import ListNotations.
Open Scope N_scope.

Definition pstr := list N.

(** Python literal strings written as ASCII [string]s. *)
Fixpoint str (s : string) : pstr :=
  match s with
  | EmptyString => []
  | String c s' => N_of_ascii c :: str s'
  end.

(** ** Character predicates *)

(** [[0-9]] *)
Definition is_digit (c : N) : bool := (48 <=? c) && (c <=? 57).

(** [\s] on a [str] pattern: [Py_UNICODE_ISSPACE]. *)
Definition is_space (c : N) : bool :=
  ((9 <=? c) && (c <=? 13)) || ((28 <=? c) && (c <=? 32)) ||
  (c =? 133) || (c =? 160) || (c =? 5760) ||
  ((8192 <=? c) && (c <=? 8202)) ||
  (c =? 8232) || (c =? 8233) || (c =? 8239) || (c =? 8287) || (c =? 12288).

(** [.] without DOTALL: anything but a newline. *)
Definition is_any (c : N) : bool := negb (c =? 10).

(** [[^ ]] *)
Definition is_not_space_char (c : N) : bool := negb (c =? 32).

(** Line boundaries of [str.splitlines]. *)
Definition is_linebreak (c : N) : bool :=
  ((10 <=? c) && (c <=? 13)) || ((28 <=? c) && (c <=? 30)) ||
  (c =? 133) || (c =? 8232) || (c =? 8233).

(** ** [str.splitlines()] (keepends=False)

    A line ends at a line boundary, [\r\n] counting as one boundary; the
    text after the last boundary is a line only when it is not empty. *)
Fixpoint splitlines_go (s : pstr) (cur : pstr) : list pstr :=
  match s with
  | [] => match cur with [] => [] | _ => [rev cur] end
  | c :: rest =>
      if is_linebreak c then
        match rest with
        | c2 :: rest' =>
            if (c =? 13) && (c2 =? 10) then rev cur :: splitlines_go rest' []
            else rev cur :: splitlines_go rest []
        | [] => rev cur :: splitlines_go rest []
        end
      else splitlines_go rest (c :: cur)
  end.

Definition splitlines (s : pstr) : list pstr := splitlines_go s [].

(** ** Regular expressions *)

Inductive regex : Type :=
| Cls (p : N -> bool)                           (* a one-character class *)
| Rep (p : N -> bool) (lo : nat) (hi : option nat)
                                                (* [p{lo,hi}], greedy; [None]: no bound *)
| Cat (r1 r2 : regex)
| Opt (r : regex)                               (* [(r)?], greedy *)
| Grp (name : string) (r : regex)               (* [(?P<name>r)] *)
| Eol.                                          (* [$] *)

(** The captures of the named groups, most recent first. *)
Definition captures := list (string * pstr).

(** Length of the longest run of [p]-characters at the head of [s],
    at most [hi] of them. *)
Fixpoint run_len (p : N -> bool) (hi : option nat) (s : pstr) : nat :=
  match hi with
  | Some O => O
  | _ =>
      match s with
      | [] => O
      | c :: s' => if p c then S (run_len p (option_map pred hi) s') else O
      end
  end.

(** Greedy backtracking over the repetition counts [i], [i-1], ..., [lo]. *)
Fixpoint rep_back (k : pstr -> captures -> option captures)
    (s : pstr) (env : captures) (lo i : nat) : option captures :=
  match k (skipn i s) env with
  | Some e => Some e
  | None =>
      match i with
      | O => None
      | S i' => if Nat.leb lo i' then rep_back k s env lo i' else None
      end
  end.

Fixpoint rmatch (r : regex) (s : pstr) (env : captures)
    (k : pstr -> captures -> option captures) : option captures :=
  match r with
  | Cls p =>
      match s with
      | c :: s' => if p c then k s' env else None
      | [] => None
      end
  | Rep p lo hi =>
      let n := run_len p hi s in
      if Nat.ltb n lo then None else rep_back k s env lo n
  | Cat r1 r2 => rmatch r1 s env (fun s' env' => rmatch r2 s' env' k)
  | Opt r' =>
      match rmatch r' s env k with
      | Some e => Some e
      | None => k s env
      end
  | Grp name r' =>
      rmatch r' s env
        (fun s' env' => k s' ((name, firstn (List.length s - List.length s')%nat s) :: env'))
  | Eol =>
      match s with
      | [] => k s env
      | [c] => if c =? 10 then k s env else None
      | _ => None
      end
  end.

(** [Pattern.match]: anchored at the start of the string; the result is
    the group dictionary of the match. *)
Definition re_match (r : regex) (s : pstr) : option captures :=
  rmatch r s [] (fun _ env => Some env).

(** [groupdict()[name]]: [None] for a group that did not participate. *)
Fixpoint group (env : captures) (name : string) : option pstr :=
  match env with
  | [] => None
  | (n, v) :: env' => if String.eqb n name then Some v else group env' name
  end.

(** [groupdict()[name]] for a group that participates in every match. *)
Definition group_str (env : captures) (name : string) : pstr :=
  match group env name with Some v => v | None => [] end.

(** A literal string. *)
Fixpoint lit (s : string) : regex :=
  match s with
  | EmptyString => Opt (Cls (fun _ => false))
  | String c EmptyString => Cls (N.eqb (N_of_ascii c))
  | String c s' => Cat (Cls (N.eqb (N_of_ascii c))) (lit s')
  end.

Definition digit := Cls is_digit.
Definition dot := Cls (N.eqb 46).

(** [^(?P<status_code>[0-9]{3})(\s(?P<enhanced_status_code>[0-9]\.[0-9]\.[0-9]))?\s(?P<text>.+)$] *)
Definition SMTP_RESPONSE_PATTERN : regex :=
  Cat (Grp "status_code" (Rep is_digit 3 (Some 3%nat)))
  (Cat (Opt (Cat (Cls is_space)
             (Grp "enhanced_status_code"
                (Cat digit (Cat dot (Cat digit (Cat dot digit)))))))
  (Cat (Cls is_space)
  (Cat (Grp "text" (Rep is_any 1 None))
   Eol))).

(** [^(?P<status_code>[0-9]{3})(-(?P<enhanced_status_code>[0-9]\.[0-9]{1,3}\.[0-9]{1,3}))?-(?P<text>.+)$] *)
Definition SMTP_MULTILINE_RESPONSE_PATTERN : regex :=
  Cat (Grp "status_code" (Rep is_digit 3 (Some 3%nat)))
  (Cat (Opt (Cat (lit "-")
             (Grp "enhanced_status_code"
                (Cat digit (Cat dot (Cat (Rep is_digit 1 (Some 3%nat))
                  (Cat dot (Rep is_digit 1 (Some 3%nat)))))))))
  (Cat (lit "-")
  (Cat (Grp "text" (Rep is_any 1 None))
   Eol))).

(** [^(?P<command>[^ ]+)( (?P<arguments>.+))?$] *)
Definition SMTP_COMMAND_PATTERN : regex :=
  Cat (Grp "command" (Rep is_not_space_char 1 None))
  (Cat (Opt (Cat (lit " ") (Grp "arguments" (Rep is_any 1 None))))
   Eol).

(** [^250( 2\.0\.0)? Ok: ([0-9]+ bytes )?queued as (?P<queue_id>.+)$] *)
Definition SMTP_QUEUED_AS_PATTERN : regex :=
  Cat (lit "250")
  (Cat (Opt (lit " 2.0.0"))
  (Cat (lit " Ok: ")
  (Cat (Opt (Cat (Rep is_digit 1 None) (lit " bytes ")))
  (Cat (lit "queued as ")
  (Cat (Grp "queue_id" (Rep is_any 1 None))
   Eol))))).

(** [^(?P<class>[0-9]{1,3})\.(?P<subject>[0-9]{1,3})\.(?P<detail>[0-9]{1,3})$] *)
Definition ENHANCED_STATUS_CODE_PATTERN : regex :=
  Cat (Grp "class" (Rep is_digit 1 (Some 3%nat)))
  (Cat dot
  (Cat (Grp "subject" (Rep is_digit 1 (Some 3%nat)))
  (Cat dot
  (Cat (Grp "detail" (Rep is_digit 1 (Some 3%nat)))
   Eol)))).

(** ** Records of [ecs_py] and of the module *)

Record SMTPEnhancedStatusCode := {
  original : pstr;
  class_ : option pstr;
  class_text : option pstr;
  subject : option pstr;
  subject_text : option pstr;
  detail : option pstr;
  detail_text : option pstr;
}.

Record SMTPRequest := {
  command : pstr;
  arguments_string : option pstr;
}.

Record SMTPResponse := {
  status_code : pstr;
  enhanced_status_code : option SMTPEnhancedStatusCode;
  lines : list pstr;
}.

Record SMTPExchange := {
  request : option SMTPRequest;
  response : option SMTPResponse;
}.

Record ExtraExchangeData := {
  queue_id : option pstr;
  error_message : option pstr;
  error_code : option pstr;
  error_type : option pstr;
}.

(** [ExtraExchangeData()] *)
Definition default_extra : ExtraExchangeData :=
  {| queue_id := None; error_message := None; error_code := None; error_type := None |}.

(** The outcome of a call: the returned pair, or the [ValueError] raised
    for a malformed line, with its message. *)
Inductive parse_result :=
| Ok (exchanges : list SMTPExchange) (extra : ExtraExchangeData)
| ValueError (message : pstr).

(** Python truthiness of an optional string. *)
Definition truthy (o : option pstr) : bool :=
  match o with Some (_ :: _) => true | _ => false end.

(** Local state of the loop of [parse_transcript]. *)
Record loop_state := {
  smtp_exchange_list : list SMTPExchange;
  smtp_request : option SMTPRequest;
  response_lines : list pstr;
  extra_exchange_data : ExtraExchangeData;
}.

Definition init_state : loop_state :=
  {| smtp_exchange_list := []; smtp_request := None; response_lines := [];
     extra_exchange_data := default_extra |}.

Definition set_queue_id (x : ExtraExchangeData) (q : pstr) : ExtraExchangeData :=
  {| queue_id := Some q; error_message := error_message x;
     error_code := error_code x; error_type := error_type x |}.

Definition NO_MESSAGE_QUEUED : pstr := str "No message was queued.".
Definition MALFORMED_PREFIX : pstr := str "Malformed SMTP line?: ".

Section Parse.

(** [smtp_lib.codes]: the lookup tables, as partial functions. *)
Variable CLASS_TO_TEXT : pstr -> option pstr.
Variable SUBJECT_TO_TEXT : pstr -> option pstr.
Variable SUBJECT_DETAIL_TO_TEXT : pstr * pstr -> option pstr.
(** [str.upper] *)
Variable upper : pstr -> pstr.

(** Lines 57-74: the enhanced status code of a final response line. *)
Definition build_enhanced (esc : option pstr) : option SMTPEnhancedStatusCode :=
  match esc with
  | Some ((_ :: _) as code) =>
      match re_match ENHANCED_STATUS_CODE_PATTERN code with
      | Some g =>
          let cls := group_str g "class" in
          let sub := group_str g "subject" in
          let det := group_str g "detail" in
          Some {| original := code;
                  class_ := Some cls; class_text := CLASS_TO_TEXT cls;
                  subject := Some sub; subject_text := SUBJECT_TO_TEXT sub;
                  detail := Some det; detail_text := SUBJECT_DETAIL_TO_TEXT (sub, det) |}
      | None =>
          Some {| original := code; class_ := None; class_text := None;
                  subject := None; subject_text := None;
                  detail := None; detail_text := None |}
      end
  | _ => None
  end.

(** One iteration of the loop (lines 51-103); [None] is the [raise]. *)
Definition step (line : pstr) (st : loop_state) : option loop_state :=
  match re_match SMTP_RESPONSE_PATTERN line with
  | Some g =>
      let lines' := response_lines st ++ [group_str g "text"] in
      let ex := {| request := smtp_request st;
                   response := Some {| status_code := group_str g "status_code";
                                       enhanced_status_code :=
                                         build_enhanced (group g "enhanced_status_code");
                                       lines := lines' |} |} in
      let extra := extra_exchange_data st in
      let extra' :=
        match re_match SMTP_QUEUED_AS_PATTERN line with
        | Some q => set_queue_id extra (group_str q "queue_id")
        | None => extra
        end in
      Some {| smtp_exchange_list := smtp_exchange_list st ++ [ex];
              smtp_request := None; response_lines := [];
              extra_exchange_data := extra' |}
  | None =>
      match re_match SMTP_MULTILINE_RESPONSE_PATTERN line with
      | Some g =>
          Some {| smtp_exchange_list := smtp_exchange_list st;
                  smtp_request := smtp_request st;
                  response_lines := response_lines st ++ [group_str g "text"];
                  extra_exchange_data := extra_exchange_data st |}
      | None =>
          match re_match SMTP_COMMAND_PATTERN line with
          | Some g =>
              Some {| smtp_exchange_list := smtp_exchange_list st;
                      smtp_request := Some {| command := upper (group_str g "command");
                                              arguments_string := group g "arguments" |};
                      response_lines := response_lines st;
                      extra_exchange_data := extra_exchange_data st |}
          | None => None
          end
      end
  end.

(** The [for] loop: the first malformed line aborts it. *)
Fixpoint run (ls : list pstr) (st : loop_state) : loop_state + pstr :=
  match ls with
  | [] => inl st
  | l :: ls' =>
      match step l st with
      | Some st' => run ls' st'
      | None => inr l
      end
  end.

(** [' '.join(lines) if lines else None] *)
Fixpoint join_space (ls : list pstr) : pstr :=
  match ls with
  | [] => []
  | [l] => l
  | l :: ls' => l ++ [32] ++ join_space ls'
  end.

Definition response_text_of (r : SMTPResponse) : option pstr :=
  match lines r with [] => None | ls => Some (join_space ls) end.

Definition is_4_or_5 (s : pstr) : bool :=
  match s with [c] => (c =? 52) || (c =? 53) | _ => false end.

Definition first_is_4_or_5 (s : pstr) : bool :=
  match s with c :: _ => (c =? 52) || (c =? 53) | [] => false end.

Definition set_error (x : ExtraExchangeData) (code : option pstr) (msg : option pstr)
    : ExtraExchangeData :=
  {| queue_id := queue_id x; error_message := msg; error_code := code;
     error_type := Some NO_MESSAGE_QUEUED |}.

(** Lines 106-121: the backward scan, over the reversed exchange list. *)
Fixpoint error_scan (rev_exs : list SMTPExchange) (x : ExtraExchangeData)
    : ExtraExchangeData :=
  match rev_exs with
  | [] => x
  | ex :: rest =>
      match response ex with
      | None => error_scan rest x
      | Some r =>
          let response_text := response_text_of r in
          let enhanced_hit :=
            match enhanced_status_code r with
            | Some e =>
                match class_ e with
                | Some c => if truthy (Some c) && is_4_or_5 c
                            then Some (set_error x (Some (original e))
                                         (if truthy response_text then response_text
                                          else detail_text e))
                            else None
                | None => None
                end
            | None => None
            end in
          match enhanced_hit with
          | Some x' => x'
          | None =>
              if first_is_4_or_5 (status_code r)
              then set_error x (Some (status_code r)) response_text
              else error_scan rest x
          end
      end
  end.

Definition parse_transcript (transcript_data : pstr) : parse_result :=
  let extra := default_extra in
  match splitlines transcript_data with
  | [] => Ok [] extra
  | ls =>
      match run ls init_state with
      | inr line => ValueError (MALFORMED_PREFIX ++ line)
      | inl st =>
          let exs := smtp_exchange_list st in
          let x := extra_exchange_data st in
          if truthy (queue_id x) then Ok exs x
          else Ok exs (error_scan (rev exs) x)
      end
  end.

End Parse.

Definition no_table : pstr -> option pstr := fun _ => None.
Definition no_table2 : pstr * pstr -> option pstr := fun _ => None.

Definition parse0 := parse_transcript no_table no_table no_table2 (fun s => s).


(** ** Vocabulary of the claims *)

(** A line of the final-response shape. *)
Definition is_final_line (l : pstr) : bool :=
  match re_match SMTP_RESPONSE_PATTERN l with Some _ => true | None => false end.

Definition count_final_lines (ls : list pstr) : nat := List.length (filter is_final_line ls).

(** The queue id recorded for a line: the capture of the queued-as shape
    on a final response line. *)
Definition queued_id_of_line (l : pstr) : option pstr :=
  match re_match SMTP_RESPONSE_PATTERN l with
  | Some _ =>
      match re_match SMTP_QUEUED_AS_PATTERN l with
      | Some q => Some (group_str q "queue_id")
      | None => None
      end
  | None => None
  end.

(** Condition (a) of the error scan: an enhanced code of class 4 or 5. *)
Definition enhanced_error (r : SMTPResponse) : option SMTPEnhancedStatusCode :=
  match enhanced_status_code r with
  | Some e =>
      match class_ e with
      | Some c => if is_4_or_5 c then Some e else None
      | None => None
      end
  | None => None
  end.

(** Conditions (a) or (b): an error-coded response. *)
Definition response_is_error (r : SMTPResponse) : bool :=
  match enhanced_error r with
  | Some _ => true
  | None => first_is_4_or_5 (status_code r)
  end.

Definition exchange_is_error (ex : SMTPExchange) : bool :=
  match response ex with Some r => response_is_error r | None => false end.

(** The [error_code] and [error_message] reported for an error-coded response. *)
Definition reported_error (r : SMTPResponse) : pstr * option pstr :=
  match enhanced_error r with
  | Some e =>
      (original e,
       if truthy (response_text_of r) then response_text_of r else detail_text e)
  | None => (status_code r, response_text_of r)
  end.

(** The last [Some] of a list of options, [d] when there is none. *)
Definition last_some {A} (os : list (option A)) (d : option A) : option A :=
  fold_left (fun acc o => match o with Some v => Some v | None => acc end) os d.

Fixpoint has_grp (r : regex) : bool :=
  match r with
  | Cls _ | Rep _ _ _ | Eol => false
  | Cat r1 r2 => has_grp r1 || has_grp r2
  | Opt r' => has_grp r'
  | Grp _ _ => true
  end.

(** A transcript given by its lines, joined with newline separators. *)
Fixpoint unlines (ls : list string) : pstr :=
  match ls with
  | [] => []
  | [l] => str l
  | l :: ls' => str l ++ [10] ++ unlines ls'
  end.

(** The request a command line sets (lines 95-100): a line that is neither
    a final nor a continuation line, and has the command shape. *)
Definition command_of_line (up : pstr -> pstr) (l : pstr) : option SMTPRequest :=
  match re_match SMTP_RESPONSE_PATTERN l, re_match SMTP_MULTILINE_RESPONSE_PATTERN l,
        re_match SMTP_COMMAND_PATTERN l with
  | None, None, Some g =>
      Some {| command := up (group_str g "command"); arguments_string := group g "arguments" |}
  | _, _, _ => None
  end.

(** The text a continuation line adds to the pending lines (line 94). *)
Definition continuation_texts (l : pstr) : list pstr :=
  match re_match SMTP_RESPONSE_PATTERN l, re_match SMTP_MULTILINE_RESPONSE_PATTERN l with
  | None, Some g => [group_str g "text"]
  | _, _ => []
  end.

(** A line the loop rejects (line 103): none of the three shapes. *)
Definition is_malformed_line (l : pstr) : bool :=
  match re_match SMTP_RESPONSE_PATTERN l, re_match SMTP_MULTILINE_RESPONSE_PATTERN l,
        re_match SMTP_COMMAND_PATTERN l with
  | None, None, None => true
  | _, _, _ => false
  end.

Example ex_resp :
  option_map (fun e => (group e "status_code", group e "enhanced_status_code", group e "text"))
    (re_match SMTP_RESPONSE_PATTERN (str "550 5.1.1 User unknown"))
  = Some (Some (str "550"), Some (str "5.1.1"), Some (str "User unknown")).
Proof. vm_compute. reflexivity. Qed.

Example ex_multi :
  option_map (fun e => group e "text")
    (re_match SMTP_MULTILINE_RESPONSE_PATTERN (str "250-12.3.4-foo"))
  = Some (Some (str "12.3.4-foo")).
Proof. vm_compute. reflexivity. Qed.

Example ex_multi2 :
  option_map (fun e => group e "text")
    (re_match SMTP_MULTILINE_RESPONSE_PATTERN (str "250-2.13.4-foo"))
  = Some (Some (str "foo")).
Proof. vm_compute. reflexivity. Qed.

Example ex_queued :
  option_map (fun e => group e "queue_id")
    (re_match SMTP_QUEUED_AS_PATTERN (str "250 2.0.0 Ok: 12345 bytes queued as ABC123"))
  = Some (Some (str "ABC123")).
Proof. vm_compute. reflexivity. Qed.

Example ex_cmd :
  option_map (fun e => (group e "command", group e "arguments"))
    (re_match SMTP_COMMAND_PATTERN (str "!!!not smtp!!!"))
  = Some (Some (str "!!!not"), Some (str "smtp!!!")).
Proof. vm_compute. reflexivity. Qed.

Example ex_split :
  splitlines (str "a" ++ [13;10;10] ++ str "b" ++ [10]) = [str "a"; []; str "b"].
Proof. vm_compute. reflexivity. Qed.

Example ex_parse_c7 :
  match parse0 (str "EHLO example.com" ++ [10] ++ str "250 hello" ++ [10] ++
                str "RCPT TO:<x>" ++ [10] ++ str "550 5.1.1 User unknown") with
  | Ok exs x => (List.length exs, error_code x, error_message x, error_type x)
  | ValueError _ => (0%nat, None, None, None)
  end = (2%nat, Some (str "5.1.1"), Some (str "User unknown"), Some NO_MESSAGE_QUEUED).
Proof. vm_compute. reflexivity. Qed.

(** ** The matcher *)

Lemma rmatch_cat r1 r2 s env k :
  rmatch (Cat r1 r2) s env k = rmatch r1 s env (fun s' env' => rmatch r2 s' env' k).
Proof. reflexivity. Qed.

Lemma rep_back_inv k s env lo i e :
  (lo <= i)%nat -> rep_back k s env lo i = Some e ->
  exists j, (lo <= j <= i)%nat /\ k (skipn j s) env = Some e.
Proof.
  induction i as [|i IH]; intros Hle H;
    change (rep_back k s env lo ?i) with
      (match k (skipn i s) env with
       | Some e => Some e
       | None => match i with
                 | O => None
                 | S i' => if Nat.leb lo i' then rep_back k s env lo i' else None
                 end
       end) in H.
  - destruct (k (skipn 0 s) env) eqn:E; [|discriminate].
    inversion H; subst. exists 0%nat. split; [lia|exact E].
  - destruct (k (skipn (S i) s) env) eqn:E.
    + inversion H; subst. exists (S i). split; [lia|exact E].
    + destruct (Nat.leb lo i) eqn:L; [|discriminate].
      apply Nat.leb_le in L. destruct (IH L H) as [j [Hj Hk]].
      exists j. split; [lia|exact Hk].
Qed.

Lemma run_len_le p hi s : (run_len p hi s <= List.length s)%nat.
Proof.
  revert hi; induction s as [|c s IH]; intros hi; simpl.
  - destruct hi as [[|h]|]; simpl; lia.
  - destruct hi as [[|h]|]; simpl; [lia| |];
      destruct (p c); simpl; try lia.
    + specialize (IH (Some h)); lia.
    + specialize (IH None); lia.
Qed.

Lemma rmatch_rep p lo hi s env k e :
  rmatch (Rep p lo hi) s env k = Some e ->
  exists j, (lo <= j <= List.length s)%nat /\ k (skipn j s) env = Some e.
Proof.
  simpl. destruct (Nat.ltb (run_len p hi s) lo) eqn:L; [discriminate|].
  apply Nat.ltb_ge in L. intros H.
  destruct (rep_back_inv _ _ _ _ _ _ L H) as [j [Hj Hk]].
  pose proof (run_len_le p hi s). exists j. split; [lia|exact Hk].
Qed.

Lemma rmatch_eol s env k e :
  rmatch Eol s env k = Some e -> k s env = Some e.
Proof.
  simpl. destruct s as [|c [|c' s]]; try discriminate; auto.
  destruct (c =? 10); [auto|discriminate].
Qed.

(** A pattern without named groups hands the captures on unchanged. *)
Lemma rmatch_nogrp r :
  has_grp r = false ->
  forall s env k e, rmatch r s env k = Some e -> exists s', k s' env = Some e.
Proof.
  induction r as [p|p lo hi|r1 IH1 r2 IH2|r IH|n r IH|]; simpl; intros Hg s env k e H.
  - destruct s as [|c s]; [discriminate|]. destruct (p c); [eauto|discriminate].
  - destruct (rmatch_rep p lo hi s env k e H) as [j [_ Hk]]. eauto.
  - apply orb_false_iff in Hg as [G1 G2].
    destruct (IH1 G1 _ _ _ _ H) as [s1 H1]. exact (IH2 G2 _ _ _ _ H1).
  - destruct (rmatch r s env k) eqn:E.
    + inversion H; subst. exact (IH Hg _ _ _ _ E).
    + eauto.
  - discriminate.
  - eauto using rmatch_eol.
Qed.

(** A named group around [p+] captures a non-empty prefix. *)
Lemma rmatch_grp_plus n p s env k e :
  rmatch (Grp n (Rep p 1 None)) s env k = Some e ->
  exists c, c <> [] /\ k (skipn (List.length c) s) ((n, c) :: env) = Some e.
Proof.
  simpl rmatch at 1. intros H.
  apply rmatch_rep in H. destruct H as [j [Hj Hk]].
  rewrite length_skipn in Hk.
  replace (List.length s - (List.length s - j))%nat with j in Hk by lia.
  exists (firstn j s). split.
  - destruct s as [|c s]; simpl in Hj; [lia|]. destruct j; [lia|]. discriminate.
  - rewrite length_firstn. replace (Nat.min j (List.length s)) with j by lia. exact Hk.
Qed.

Ltac skip_nogrp H :=
  rewrite rmatch_cat in H; apply rmatch_nogrp in H; [|reflexivity];
  let s := fresh "s" in destruct H as [s H]; cbv beta in H.

Lemma queued_capture_nonempty l g :
  re_match SMTP_QUEUED_AS_PATTERN l = Some g ->
  exists q, group g "queue_id" = Some q /\ q <> [].
Proof.
  unfold re_match, SMTP_QUEUED_AS_PATTERN. intros H.
  do 5 skip_nogrp H.
  rewrite rmatch_cat in H. apply rmatch_grp_plus in H.
  destruct H as [c [Hc H]]. apply rmatch_eol in H.
  inversion H; subst. exists c. split; [reflexivity|exact Hc].
Qed.

Lemma queued_id_of_line_nonempty l q :
  queued_id_of_line l = Some q -> q <> [].
Proof.
  unfold queued_id_of_line.
  destruct (re_match SMTP_RESPONSE_PATTERN l); [|discriminate].
  destruct (re_match SMTP_QUEUED_AS_PATTERN l) eqn:E; [|discriminate].
  intros H; inversion H; subst.
  destruct (queued_capture_nonempty _ _ E) as [q' [Hq Hn]].
  unfold group_str. rewrite Hq. exact Hn.
Qed.

(** ** The loop *)

Section Loop.

Variable CT ST : pstr -> option pstr.
Variable SDT : pstr * pstr -> option pstr.
Variable up : pstr -> pstr.

Local Abbreviation step := (step CT ST SDT up).
Local Abbreviation run := (run CT ST SDT up).
Local Abbreviation parse := (parse_transcript CT ST SDT up).

Definition no_errors (x : ExtraExchangeData) : Prop :=
  error_message x = None /\ error_code x = None /\ error_type x = None.

Definition has_lines (ex : SMTPExchange) : Prop :=
  exists r, response ex = Some r /\ lines r <> [].

Definition queue_id_ok (x : ExtraExchangeData) : Prop :=
  forall q, queue_id x = Some q -> q <> [].

Lemma step_exchanges l st st' :
  step l st = Some st' ->
  (List.length (smtp_exchange_list st') =
     List.length (smtp_exchange_list st) + if is_final_line l then 1 else 0)%nat /\
  (Forall has_lines (smtp_exchange_list st) -> Forall has_lines (smtp_exchange_list st')).
Proof.
  unfold step, is_final_line.
  destruct (re_match SMTP_RESPONSE_PATTERN l) as [g|].
  - intros H; inversion H; subst; clear H; simpl.
    rewrite length_app; simpl. split; [lia|].
    intros HF. apply Forall_app; split; [exact HF|].
    constructor; [|constructor].
    eexists; split; [reflexivity|]. simpl.
    destruct (response_lines st); discriminate.
  - destruct (re_match SMTP_MULTILINE_RESPONSE_PATTERN l);
      [|destruct (re_match SMTP_COMMAND_PATTERN l); [|discriminate]];
      intros H; inversion H; subst; simpl; split; auto; lia.
Qed.

Lemma step_extra l st st' :
  step l st = Some st' ->
  queue_id (extra_exchange_data st') =
    match queued_id_of_line l with
    | Some q => Some q
    | None => queue_id (extra_exchange_data st)
    end /\
  error_message (extra_exchange_data st') = error_message (extra_exchange_data st) /\
  error_code (extra_exchange_data st') = error_code (extra_exchange_data st) /\
  error_type (extra_exchange_data st') = error_type (extra_exchange_data st).
Proof.
  unfold step, queued_id_of_line.
  destruct (re_match SMTP_RESPONSE_PATTERN l) as [g|].
  - intros H; inversion H; subst; clear H; simpl.
    destruct (re_match SMTP_QUEUED_AS_PATTERN l); simpl; auto.
  - destruct (re_match SMTP_MULTILINE_RESPONSE_PATTERN l);
      [|destruct (re_match SMTP_COMMAND_PATTERN l); [|discriminate]];
      intros H; inversion H; subst; simpl; auto.
Qed.

Lemma run_exchanges ls st st' :
  run ls st = inl st' ->
  List.length (smtp_exchange_list st') =
    (List.length (smtp_exchange_list st) + count_final_lines ls)%nat /\
  (Forall has_lines (smtp_exchange_list st) -> Forall has_lines (smtp_exchange_list st')).
Proof.
  revert st. induction ls as [|l ls IH]; intros st H; simpl in H.
  - inversion H; subst. unfold count_final_lines; simpl. split; [lia|auto].
  - destruct (step l st) as [st1|] eqn:E; [|discriminate].
    destruct (step_exchanges _ _ _ E) as [L1 F1].
    destruct (IH _ H) as [L2 F2].
    unfold count_final_lines in *; simpl.
    split; [|auto].
    destruct (is_final_line l); simpl in *; lia.
Qed.

Lemma run_extra ls st st' :
  run ls st = inl st' ->
  queue_id (extra_exchange_data st') =
    last_some (map queued_id_of_line ls) (queue_id (extra_exchange_data st)) /\
  error_message (extra_exchange_data st') = error_message (extra_exchange_data st) /\
  error_code (extra_exchange_data st') = error_code (extra_exchange_data st) /\
  error_type (extra_exchange_data st') = error_type (extra_exchange_data st).
Proof.
  revert st. induction ls as [|l ls IH]; intros st H; simpl in H.
  - inversion H; subst. auto.
  - destruct (step l st) as [st1|] eqn:E; [|discriminate].
    destruct (step_extra _ _ _ E) as [Q1 [M1 [C1 T1]]].
    destruct (IH _ H) as [Q2 [M2 [C2 T2]]].
    unfold last_some in *; simpl.
    rewrite M2, C2, T2, Q2, Q1. repeat split; auto.
Qed.

Lemma last_some_ok (os : list (option pstr)) d :
  (forall q, In (Some q) os -> q <> []) -> (forall q, d = Some q -> q <> []) ->
  forall q, last_some os d = Some q -> q <> [].
Proof.
  unfold last_some. revert d.
  induction os as [|o os IH]; simpl; intros d Hos Hd.
  - exact Hd.
  - apply IH; [intros; apply Hos; auto|].
    destruct o as [v|]; [|exact Hd].
    intros q Hq; inversion Hq; subst. apply Hos; auto.
Qed.

Lemma run_queue_id_ok ls st' :
  run ls init_state = inl st' -> queue_id_ok (extra_exchange_data st').
Proof.
  intros H q Hq. destruct (run_extra _ _ _ H) as [Q _].
  rewrite Q in Hq. revert Hq. apply last_some_ok.
  - intros q' Hin. apply in_map_iff in Hin. destruct Hin as [l [Hl _]].
    exact (queued_id_of_line_nonempty _ _ Hl).
  - discriminate.
Qed.

Lemma run_no_errors ls st' :
  run ls init_state = inl st' -> no_errors (extra_exchange_data st').
Proof.
  intros H. destruct (run_extra _ _ _ H) as [_ [M [C T]]].
  unfold no_errors. rewrite M, C, T. auto.
Qed.

(** Every successful call is the loop run over the lines, then the scan. *)
Lemma parse_ok_cases t exs x :
  parse t = Ok exs x ->
  exists st, run (splitlines t) init_state = inl st /\
    exs = smtp_exchange_list st /\
    x = if truthy (queue_id (extra_exchange_data st)) then extra_exchange_data st
        else error_scan (rev exs) (extra_exchange_data st).
Proof.
  unfold parse_transcript.
  destruct (splitlines t) as [|l ls] eqn:E.
  - intros H; inversion H; subst. exists init_state. auto.
  - destruct (run (l :: ls) init_state) as [st|m]; [|discriminate].
    intros H. exists st. split; [reflexivity|].
    destruct (truthy (queue_id (extra_exchange_data st))); inversion H; auto.
Qed.

End Loop.

(** ** The backward error scan *)

Lemma error_scan_cons ex rest x :
  error_scan (ex :: rest) x =
    match response ex with
    | Some r =>
        if response_is_error r
        then set_error x (Some (fst (reported_error r))) (snd (reported_error r))
        else error_scan rest x
    | None => error_scan rest x
    end.
Proof.
  simpl. destruct (response ex) as [r|]; [|reflexivity].
  unfold response_is_error, reported_error, enhanced_error.
  destruct (enhanced_status_code r) as [e|]; [|reflexivity].
  destruct (class_ e) as [c|]; [|reflexivity].
  destruct (is_4_or_5 c) eqn:E.
  - destruct c as [|a c]; [discriminate|]. reflexivity.
  - rewrite andb_false_r. reflexivity.
Qed.

Lemma error_scan_queue_id exs x : queue_id (error_scan exs x) = queue_id x.
Proof.
  induction exs as [|ex exs IH]; [reflexivity|].
  rewrite error_scan_cons.
  destruct (response ex) as [r|]; [|exact IH].
  destruct (response_is_error r); [reflexivity|exact IH].
Qed.

(** The scan reports the nearest-to-end error-coded exchange, skipping
    the exchanges after it, and changes nothing when there is none. *)
Lemma error_scan_spec exs x :
  (exists pre ex r post,
      exs = pre ++ ex :: post /\ response ex = Some r /\ response_is_error r = true /\
      forallb (fun e => negb (exchange_is_error e)) post = true /\
      error_scan (rev exs) x =
        set_error x (Some (fst (reported_error r))) (snd (reported_error r)))
  \/ (forallb (fun e => negb (exchange_is_error e)) exs = true /\ error_scan (rev exs) x = x).
Proof.
  induction exs as [|ex exs IH] using rev_ind.
  - right. split; reflexivity.
  - replace (rev (exs ++ [ex])) with (ex :: rev exs)
      by (rewrite rev_app_distr; reflexivity).
    rewrite error_scan_cons.
    destruct (response ex) as [r|] eqn:R.
    + destruct (response_is_error r) eqn:E.
      * left. exists exs, ex, r, []. repeat split; auto.
      * destruct IH as [[pre [ex' [r' [post [Hexs [R' [E' [F S]]]]]]]] | [F S]].
        -- left. exists pre, ex', r', (post ++ [ex]).
           subst exs. rewrite <- app_assoc. repeat split; auto.
           rewrite forallb_app, F. simpl. unfold exchange_is_error. rewrite R, E. reflexivity.
        -- right. rewrite forallb_app, F. simpl.
           unfold exchange_is_error. rewrite R, E. split; auto.
    + destruct IH as [[pre [ex' [r' [post [Hexs [R' [E' [F S]]]]]]]] | [F S]].
      * left. exists pre, ex', r', (post ++ [ex]).
        subst exs. rewrite <- app_assoc. repeat split; auto.
        rewrite forallb_app, F. simpl. unfold exchange_is_error. rewrite R. reflexivity.
      * right. rewrite forallb_app, F. simpl.
        unfold exchange_is_error. rewrite R. split; auto.
Qed.

(** ** Line splitting *)

Lemma splitlines_go_cons c rest cur :
  splitlines_go (c :: rest) cur =
    if is_linebreak c then
      match rest with
      | c2 :: rest' =>
          if (c =? 13) && (c2 =? 10) then rev cur :: splitlines_go rest' []
          else rev cur :: splitlines_go rest []
      | [] => rev cur :: splitlines_go rest []
      end
    else splitlines_go rest (c :: cur).
Proof. reflexivity. Qed.

Lemma splitlines_go_newline_first b : In [] (splitlines_go (10 :: b) []).
Proof. rewrite splitlines_go_cons. destruct b; simpl; auto. Qed.

Lemma splitlines_go_blank a b cur :
  In [] (splitlines_go (a ++ 10 :: 10 :: b) cur).
Proof.
  remember (List.length a) as n eqn:Hn.
  revert a cur Hn. induction n as [n IH] using lt_wf_ind. intros a cur Hn.
  destruct a as [|c a]; simpl app; rewrite splitlines_go_cons.
  - change (In [] (rev cur :: splitlines_go (10 :: b) [])). right. apply splitlines_go_newline_first.
  - destruct (is_linebreak c) eqn:L.
    + destruct a as [|c2 a]; simpl app.
      * destruct (c =? 13); simpl andb; right.
        -- apply splitlines_go_newline_first.
        -- apply (IH 0%nat) with (a := []); [simpl in Hn; lia|reflexivity].
      * cbv iota. destruct ((c =? 13) && (c2 =? 10)); right.
        -- apply (IH (List.length a)); [simpl in Hn; lia|reflexivity].
        -- apply (IH (List.length (c2 :: a))) with (a := c2 :: a);
             [simpl in Hn; simpl; lia|reflexivity].
    + apply (IH (List.length a)); [simpl in Hn; lia|reflexivity].
Qed.

Lemma splitlines_go_trailing_newline s c cur :
  is_linebreak c = false ->
  splitlines_go (s ++ [c; 10]) cur = splitlines_go (s ++ [c]) cur.
Proof.
  intros Hc.
  remember (List.length s) as n eqn:Hn.
  revert s cur Hn. induction n as [n IH] using lt_wf_ind. intros s cur Hn.
  destruct s as [|x s]; simpl app; rewrite !splitlines_go_cons.
  - rewrite Hc. reflexivity.
  - destruct (is_linebreak x) eqn:L;
      [|apply (IH (List.length s)); [simpl in Hn; lia|reflexivity]].
    destruct s as [|y s]; simpl app.
    + assert (E : (c =? 10) = false).
      { destruct (c =? 10) eqn:E; [apply N.eqb_eq in E; subst; discriminate|reflexivity]. }
      cbv iota. rewrite E, andb_false_r. f_equal. rewrite !splitlines_go_cons, Hc. reflexivity.
    + cbv iota. destruct ((x =? 13) && (y =? 10)); f_equal.
      * apply (IH (List.length s)); [simpl in Hn; lia|reflexivity].
      * apply (IH (List.length (y :: s))) with (s := y :: s);
          [simpl in Hn; simpl; lia|reflexivity].
Qed.

(** ** Malformed lines *)

Lemma bad_line_no_match l :
  l = [] \/ (exists r, l = 32 :: r) ->
  re_match SMTP_RESPONSE_PATTERN l = None /\
  re_match SMTP_MULTILINE_RESPONSE_PATTERN l = None /\
  re_match SMTP_COMMAND_PATTERN l = None.
Proof.
  intros [H | [r H]]; subst; repeat split; reflexivity.
Qed.

Section Malformed.

Variable CT ST : pstr -> option pstr.
Variable SDT : pstr * pstr -> option pstr.
Variable up : pstr -> pstr.

Lemma step_bad_line l st :
  l = [] \/ (exists r, l = 32 :: r) -> step CT ST SDT up l st = None.
Proof.
  intros H. destruct (bad_line_no_match l H) as [R [M C]].
  unfold step. rewrite R, M, C. reflexivity.
Qed.

Lemma run_bad_line ls l st :
  In l ls -> l = [] \/ (exists r, l = 32 :: r) ->
  exists m, run CT ST SDT up ls st = inr m.
Proof.
  intros Hin Hl. revert st. induction ls as [|l' ls IH]; intros st; [destruct Hin|].
  simpl. destruct Hin as [<- | Hin].
  - rewrite (step_bad_line _ st Hl). eauto.
  - destruct (step CT ST SDT up l' st); eauto.
Qed.

Lemma parse_bad_line t l :
  In l (splitlines t) -> l = [] \/ (exists r, l = 32 :: r) ->
  exists m, parse_transcript CT ST SDT up t = ValueError m.
Proof.
  intros Hin Hl. unfold parse_transcript.
  destruct (run_bad_line _ _ init_state Hin Hl) as [m Hm].
  destruct (splitlines t) as [|l0 ls]; [destruct Hin|].
  rewrite Hm. eauto.
Qed.

End Malformed.

Lemma last_some_app {A} (xs ys : list (option A)) d :
  last_some (xs ++ ys) d = last_some ys (last_some xs d).
Proof. unfold last_some. apply fold_left_app. Qed.

Lemma last_some_nones {A} (os : list (option A)) d :
  Forall (fun o => o = None) os -> last_some os d = d.
Proof.
  unfold last_some. revert d. induction os as [|o os IH]; intros d H; [reflexivity|].
  inversion H; subst. simpl. apply IH. assumption.
Qed.

(** ** The claims *)

Section Claims.

Variable CLASS_TO_TEXT SUBJECT_TO_TEXT : pstr -> option pstr.
Variable SUBJECT_DETAIL_TO_TEXT : pstr * pstr -> option pstr.
Variable upper : pstr -> pstr.

Local Abbreviation step := (step CLASS_TO_TEXT SUBJECT_TO_TEXT SUBJECT_DETAIL_TO_TEXT upper).
Local Abbreviation run := (run CLASS_TO_TEXT SUBJECT_TO_TEXT SUBJECT_DETAIL_TO_TEXT upper).
Local Abbreviation parse :=
  (parse_transcript CLASS_TO_TEXT SUBJECT_TO_TEXT SUBJECT_DETAIL_TO_TEXT upper).

(** C1 (as amended): when no queue id is recorded, the backward scan
    skips every exchange whose response is not error-coded and reports
    the nearest-to-end exchange whose response is error-coded (enhanced
    class 4 or 5, or status code starting with 4 or 5); the error fields
    stay absent only when no exchange is error-coded. *)
Theorem error_scan_reports_last_error_coded t exs x :
  parse t = Ok exs x -> truthy (queue_id x) = false ->
  (exists pre ex r post,
      exs = pre ++ ex :: post /\ response ex = Some r /\ response_is_error r = true /\
      forallb (fun e => negb (exchange_is_error e)) post = true /\
      error_code x = Some (fst (reported_error r)) /\
      error_message x = snd (reported_error r) /\
      error_type x = Some (str "No message was queued."))
  \/ (forallb (fun e => negb (exchange_is_error e)) exs = true /\
      error_code x = None /\ error_message x = None /\ error_type x = None).
Proof.
  intros H Hq.
  destruct (parse_ok_cases _ _ _ _ _ _ _ H) as [st [R [-> Hx]]].
  destruct (run_no_errors _ _ _ _ _ _ R) as [M [C T]].
  destruct (truthy (queue_id (extra_exchange_data st))) eqn:Q.
  - subst x. rewrite Q in Hq. discriminate.
  - subst x.
    destruct (error_scan_spec (smtp_exchange_list st) (extra_exchange_data st))
      as [[pre [ex [r [post [E [Rr [Er [F S]]]]]]]] | [F S]].
    + left. exists pre, ex, r, post. rewrite S. repeat split; auto.
    + right. rewrite S. repeat split; auto.
Qed.

(** C2 (as amended): the line "!!!not smtp!!!" has the command shape, so
    parsing it does not fail: the call returns no exchange and default
    extra data, the line being held as the pending request. *)
Theorem not_smtp_line_is_a_command :
  parse (str "!!!not smtp!!!") = Ok [] default_extra /\
  run [str "!!!not smtp!!!"] init_state =
    inl {| smtp_exchange_list := [];
           smtp_request := Some {| command := upper (str "!!!not");
                                   arguments_string := Some (str "smtp!!!") |};
           response_lines := []; extra_exchange_data := default_extra |}.
Proof. split; reflexivity. Qed.

(** C3 (as amended): a line that is not a final response line and has the
    code's continuation shape (first enhanced-code component one digit)
    adds exactly its text capture to the pending lines, and nothing else
    of the state changes. *)
Theorem continuation_appends_text l st g t :
  re_match SMTP_RESPONSE_PATTERN l = None ->
  re_match SMTP_MULTILINE_RESPONSE_PATTERN l = Some g ->
  group g "text" = Some t ->
  step l st =
    Some {| smtp_exchange_list := smtp_exchange_list st;
            smtp_request := smtp_request st;
            response_lines := response_lines st ++ [t];
            extra_exchange_data := extra_exchange_data st |}.
Proof.
  intros R M T. unfold step. rewrite R, M.
  unfold group_str. rewrite T. reflexivity.
Qed.

(** C4: a successful parse emits one exchange per line of the
    final-response shape. *)
Theorem exchange_count_is_final_line_count t exs x :
  parse t = Ok exs x -> List.length exs = count_final_lines (splitlines t).
Proof.
  intros H. destruct (parse_ok_cases _ _ _ _ _ _ _ H) as [st [R [-> _]]].
  destruct (run_exchanges _ _ _ _ _ _ _ R) as [L _]. exact L.
Qed.

(** C5: the queue id is the one captured from the last final response
    line of the queued-as shape. *)
Theorem queue_id_last_wins t exs x pre l post g q :
  splitlines t = pre ++ l :: post ->
  re_match SMTP_RESPONSE_PATTERN l <> None ->
  re_match SMTP_QUEUED_AS_PATTERN l = Some g ->
  group g "queue_id" = Some q ->
  Forall (fun l' => re_match SMTP_RESPONSE_PATTERN l' = None \/
                    re_match SMTP_QUEUED_AS_PATTERN l' = None) post ->
  parse t = Ok exs x -> queue_id x = Some q.
Proof.
  intros Hs Hr Hq Hg Hpost H.
  destruct (parse_ok_cases _ _ _ _ _ _ _ H) as [st [R [_ Hx]]].
  destruct (run_extra _ _ _ _ _ _ _ R) as [Q _].
  assert (Qst : queue_id (extra_exchange_data st) = Some q).
  { rewrite Q, Hs, map_app, last_some_app. simpl map.
    unfold last_some at 1. simpl fold_left.
    assert (E : queued_id_of_line l = Some q).
    { unfold queued_id_of_line, group_str.
      destruct (re_match SMTP_RESPONSE_PATTERN l); [|congruence].
      rewrite Hq, Hg. reflexivity. }
    rewrite E. apply last_some_nones.
    apply Forall_map. eapply Forall_impl; [|exact Hpost].
    intros l' [N|N]; unfold queued_id_of_line; rewrite N;
      [reflexivity|destruct (re_match SMTP_RESPONSE_PATTERN l'); reflexivity]. }
  destruct (truthy (queue_id (extra_exchange_data st))); subst x;
    [exact Qst|rewrite error_scan_queue_id; exact Qst].
Qed.

(** C6: the queued-as line of the spec yields the queue id "ABC123", and
    whenever a queue id is set the error fields stay absent. *)
Theorem queue_id_skips_error_scan :
  (match parse (str "250 2.0.0 Ok: 12345 bytes queued as ABC123") with
   | Ok _ x => queue_id x = Some (str "ABC123")
   | ValueError _ => False
   end) /\
  (forall t exs x, parse t = Ok exs x -> queue_id x <> None ->
     error_message x = None /\ error_code x = None /\ error_type x = None).
Proof.
  split; [reflexivity|].
  intros t exs x H Hq.
  destruct (parse_ok_cases _ _ _ _ _ _ _ H) as [st [R [-> Hx]]].
  pose proof (run_no_errors _ _ _ _ _ _ R) as NE.
  pose proof (run_queue_id_ok _ _ _ _ _ _ R) as QK.
  destruct (truthy (queue_id (extra_exchange_data st))) eqn:T.
  - subst x. exact NE.
  - exfalso. subst x. rewrite error_scan_queue_id in Hq.
    destruct (queue_id (extra_exchange_data st)) as [q|] eqn:Q; [|congruence].
    destruct q as [|c q]; [exact (QK [] Q eq_refl)|discriminate].
Qed.

(** C7: the error-tail scenario of the spec. *)
Theorem error_tail_scenario :
  match parse (unlines ["EHLO example.com"; "250 hello"; "RCPT TO:<x>";
                        "550 5.1.1 User unknown"]%string) with
  | Ok exs x =>
      List.length exs = 2%nat /\ error_code x = Some (str "5.1.1") /\
      error_message x = Some (str "User unknown") /\
      error_type x = Some (str "No message was queued.")
  | ValueError _ => False
  end.
Proof. vm_compute. repeat split. Qed.

(** C8: the empty transcript gives no exchange and default extra data. *)
Theorem empty_transcript :
  parse_transcript CLASS_TO_TEXT SUBJECT_TO_TEXT SUBJECT_DETAIL_TO_TEXT upper [] = Ok [] {| queue_id := None; error_message := None;
                      error_code := None; error_type := None |}.
Proof. reflexivity. Qed.

(** C9: every emitted exchange has a response with at least one line. *)
Theorem emitted_exchanges_have_lines t exs x :
  parse_transcript CLASS_TO_TEXT SUBJECT_TO_TEXT SUBJECT_DETAIL_TO_TEXT upper t = Ok exs x ->
  Forall (fun ex => exists r, response ex = Some r /\ lines r <> []) exs.
Proof.
  intros H. destruct (parse_ok_cases _ _ _ _ _ _ _ H) as [st [R [-> _]]].
  destruct (run_exchanges _ _ _ _ _ _ _ R) as [_ F]. apply F. constructor.
Qed.

(** C10: an empty line, or one starting with a space, matches none of the
    three line shapes and makes the call fail; so does an interior blank
    line ("\n\n"), while one newline after a last character that is not a
    line boundary changes nothing. *)
Theorem blank_or_space_line_fails :
  (forall l, l = [] \/ (exists r, l = 32 :: r) ->
     re_match SMTP_RESPONSE_PATTERN l = None /\
     re_match SMTP_MULTILINE_RESPONSE_PATTERN l = None /\
     re_match SMTP_COMMAND_PATTERN l = None) /\
  (forall t l, In l (splitlines t) -> l = [] \/ (exists r, l = 32 :: r) ->
     exists m, parse t = ValueError m) /\
  (forall a b, exists m, parse (a ++ [10; 10] ++ b) = ValueError m) /\
  (forall t c, is_linebreak c = false -> parse (t ++ [c] ++ [10]) = parse (t ++ [c])).
Proof.
  split; [exact bad_line_no_match|].
  split; [intros t l; apply parse_bad_line|].
  split.
  - intros a b. apply (parse_bad_line _ _ _ _ _ []); [apply splitlines_go_blank|left; reflexivity].
  - intros t c Hc. unfold parse_transcript, splitlines. simpl app.
    rewrite splitlines_go_trailing_newline by exact Hc. reflexivity.
Qed.

End Claims.

(** ** Counterexamples *)

(** C1 as stated fails: the last exchange's response "250 ok" is not an
    error, yet the scan goes on to the earlier "550 nope" and reports it. *)
Lemma scan_passes_non_error_last_response :
  match parse0 (unlines ["550 nope"; "250 ok"]%string) with
  | Ok [_; ex] x =>
      truthy (queue_id x) = false /\ response ex <> None /\
      exchange_is_error ex = false /\ error_code x = Some (str "550")
  | _ => False
  end.
Proof. vm_compute. repeat split; try reflexivity; discriminate. Qed.

(** C2 as stated fails: "!!!not smtp!!!" parses without error. *)
Lemma not_smtp_line_parses :
  exists exs x, parse0 (str "!!!not smtp!!!") = Ok exs x.
Proof. eexists; eexists; reflexivity. Qed.

(** C3 as stated fails: for "250-12.3.4-foo" the optional enhanced group of
    the continuation pattern cannot match ([12] is two digits), so the
    text capture, and what is appended, is "12.3.4-foo". *)
Lemma dotted_continuation_keeps_prefix :
  match step no_table no_table no_table2 (fun s => s) (str "250-12.3.4-foo") init_state with
  | Some st => response_lines st = [str "12.3.4-foo"] /\ response_lines st <> [str "foo"]
  | None => False
  end.
Proof. vm_compute. split; [reflexivity|discriminate]. Qed.

(** ** Witnesses *)

(** Turns a goal [exists exs x, parse0 T = Ok exs x /\ P exs x] into
    [P exs x], with [E : parse0 T = Ok exs x] and [exs], [x] evaluated. *)
Ltac eval_parse0 T exs x E :=
  let E' := fresh "E'" in
  destruct (parse0 T) as [exs x|?m] eqn:E;
  [ exists exs, x; split; [reflexivity|];
    pose proof E as E'; vm_compute in E'; injection E' as <- <-
  | exfalso; vm_compute in E; discriminate ].

Lemma error_scan_reports_last_error_coded_witness :
  exists exs x,
    parse0 (unlines ["550 5.1.1 nope"; "250 ok"]%string) = Ok exs x /\
    truthy (queue_id x) = false /\
    ((exists pre ex r post,
        exs = pre ++ ex :: post /\ response ex = Some r /\ response_is_error r = true /\
        forallb (fun e => negb (exchange_is_error e)) post = true /\
        error_code x = Some (fst (reported_error r)) /\
        error_message x = snd (reported_error r) /\
        error_type x = Some (str "No message was queued."))
     \/ (forallb (fun e => negb (exchange_is_error e)) exs = true /\
         error_code x = None /\ error_message x = None /\ error_type x = None)).
Proof.
  eval_parse0 (unlines ["550 5.1.1 nope"; "250 ok"]%string) exs x E.
  split; [vm_compute; reflexivity|].
  apply (error_scan_reports_last_error_coded no_table no_table no_table2 (fun s => s)
           (unlines ["550 5.1.1 nope"; "250 ok"]%string)); [exact E|vm_compute; reflexivity].
Defined.

Lemma continuation_appends_text_witness :
  exists g,
    re_match SMTP_RESPONSE_PATTERN (str "250-12.3.4-foo") = None /\
    re_match SMTP_MULTILINE_RESPONSE_PATTERN (str "250-12.3.4-foo") = Some g /\
    group g "text" = Some (str "12.3.4-foo") /\
    step no_table no_table no_table2 (fun s => s) (str "250-12.3.4-foo") init_state =
      Some {| smtp_exchange_list := []; smtp_request := None;
              response_lines := [str "12.3.4-foo"];
              extra_exchange_data := default_extra |}.
Proof.
  exists [("text"%string, str "12.3.4-foo"); ("status_code"%string, str "250")].
  split; [vm_compute; reflexivity|]. split; [vm_compute; reflexivity|].
  split; [vm_compute; reflexivity|].
  apply (continuation_appends_text no_table no_table no_table2 (fun s => s)
           (str "250-12.3.4-foo") init_state
           [("text"%string, str "12.3.4-foo"); ("status_code"%string, str "250")]);
    vm_compute; reflexivity.
Defined.

Lemma exchange_count_is_final_line_count_witness :
  exists exs x,
    parse0 (unlines ["220 hi"; "EHLO a"; "250-a"; "250 b"; "QUIT"; "221 bye"]%string)
      = Ok exs x /\
    List.length exs =
      count_final_lines
        (splitlines (unlines ["220 hi"; "EHLO a"; "250-a"; "250 b"; "QUIT"; "221 bye"]%string)).
Proof.
  eval_parse0 (unlines ["220 hi"; "EHLO a"; "250-a"; "250 b"; "QUIT"; "221 bye"]%string)
    exs x E.
  exact (exchange_count_is_final_line_count no_table no_table no_table2 (fun s => s) _ _ _ E).
Defined.

Lemma queue_id_last_wins_witness :
  exists exs x,
    parse0 (unlines ["MAIL FROM:<a>"; "250 2.0.0 Ok: queued as FIRST"; "DATA";
                     "250 Ok: 12 bytes queued as SECOND"; "QUIT"; "221 bye"]%string)
      = Ok exs x /\
    queue_id x = Some (str "SECOND").
Proof.
  eval_parse0 (unlines ["MAIL FROM:<a>"; "250 2.0.0 Ok: queued as FIRST"; "DATA";
                        "250 Ok: 12 bytes queued as SECOND"; "QUIT"; "221 bye"]%string)
    exs x E.
  eapply (queue_id_last_wins no_table no_table no_table2 (fun s => s)
           (unlines ["MAIL FROM:<a>"; "250 2.0.0 Ok: queued as FIRST"; "DATA";
                     "250 Ok: 12 bytes queued as SECOND"; "QUIT"; "221 bye"]%string)
           _ _
           [str "MAIL FROM:<a>"; str "250 2.0.0 Ok: queued as FIRST"; str "DATA"]
           (str "250 Ok: 12 bytes queued as SECOND")
           [str "QUIT"; str "221 bye"]
           [("queue_id"%string, str "SECOND")]).
  - vm_compute. reflexivity.
  - vm_compute. discriminate.
  - vm_compute. reflexivity.
  - vm_compute. reflexivity.
  - constructor; [left; vm_compute; reflexivity|].
    constructor; [right; vm_compute; reflexivity|]. constructor.
  - exact E.
Defined.

Lemma queue_id_skips_error_scan_witness :
  exists exs x,
    parse0 (unlines ["550 no"; "250 Ok: queued as Q1"]%string) = Ok exs x /\
    error_message x = None /\ error_code x = None /\ error_type x = None.
Proof.
  eval_parse0 (unlines ["550 no"; "250 Ok: queued as Q1"]%string) exs x E.
  pose proof (proj2 (queue_id_skips_error_scan no_table no_table no_table2 (fun s => s))
                (unlines ["550 no"; "250 Ok: queued as Q1"]%string) _ _ E) as H.
  apply H. vm_compute. discriminate.
Defined.

Lemma emitted_exchanges_have_lines_witness :
  exists exs x,
    parse0 (unlines ["EHLO example.com"; "250 hello"; "RCPT TO:<x>";
                     "550 5.1.1 User unknown"]%string) = Ok exs x /\
    Forall (fun ex => exists r, response ex = Some r /\ lines r <> []) exs.
Proof.
  eval_parse0 (unlines ["EHLO example.com"; "250 hello"; "RCPT TO:<x>";
                        "550 5.1.1 User unknown"]%string) exs x E.
  exact (emitted_exchanges_have_lines no_table no_table no_table2 (fun s => s) _ _ _ E).
Defined.

Lemma blank_or_space_line_fails_witness :
  (exists m, parse0 (str "EHLO a" ++ [10; 10] ++ str "QUIT") = ValueError m) /\
  parse0 (str "250 o" ++ [N_of_ascii "k"%char] ++ [10]) = parse0 (str "250 o" ++ [N_of_ascii "k"%char]).
Proof.
  split.
  - exact (proj1 (proj2 (proj2 (blank_or_space_line_fails no_table no_table no_table2
             (fun s => s)))) (str "EHLO a") (str "QUIT")).
  - apply (proj2 (proj2 (proj2 (blank_or_space_line_fails no_table no_table no_table2
             (fun s => s)))) (str "250 o") (N_of_ascii "k"%char)).
    vm_compute. reflexivity.
Defined.

(** ** Shape of the lines the patterns accept *)

Lemma rmatch_grp n r s env k :
  rmatch (Grp n r) s env k =
  rmatch r s env (fun s' env' => k s' ((n, firstn (List.length s - List.length s')%nat s) :: env')).
Proof. reflexivity. Qed.

Lemma rmatch_opt r s env k :
  rmatch (Opt r) s env k = match rmatch r s env k with Some e => Some e | None => k s env end.
Proof. reflexivity. Qed.

Lemma rmatch_cls_inv p s env k e :
  rmatch (Cls p) s env k = Some e ->
  exists c s', s = c :: s' /\ p c = true /\ k s' env = Some e.
Proof.
  simpl. destruct s as [|c s']; [discriminate|].
  destruct (p c) eqn:P; [eauto|discriminate].
Qed.

Lemma rmatch_eol_inv s env k e :
  rmatch Eol s env k = Some e -> (s = [] \/ s = [10]) /\ k s env = Some e.
Proof.
  simpl. destruct s as [|c [|c' s]]; try discriminate; auto.
  destruct (c =? 10) eqn:E; [|discriminate].
  apply N.eqb_eq in E; subst. auto.
Qed.

Lemma run_len_spec p hi s j :
  (j <= run_len p hi s)%nat ->
  Forall (fun c => p c = true) (firstn j s) /\ (j <= List.length s)%nat /\
  (forall h, hi = Some h -> (j <= h)%nat).
Proof.
  revert hi j. induction s as [|c s IH]; intros hi j Hj.
  - assert (j = 0%nat) by (destruct hi as [[|h]|]; simpl in Hj; lia). subst.
    repeat split; simpl; auto; lia.
  - destruct hi as [[|h]|] eqn:Hh; simpl in Hj.
    + assert (j = 0%nat) by lia. subst. repeat split; simpl; auto; lia.
    + destruct (p c) eqn:P; [|assert (j = 0%nat) by lia; subst; repeat split; simpl; auto; lia].
      destruct j as [|j]; [repeat split; simpl; auto; lia|].
      destruct (IH (Some h) j ltac:(lia)) as [F [L B]].
      repeat split; simpl; auto; [lia|]. intros h' E. inversion E; subst.
      specialize (B h eq_refl). lia.
    + destruct (p c) eqn:P; [|assert (j = 0%nat) by lia; subst; repeat split; simpl; auto; lia].
      destruct j as [|j]; [repeat split; simpl; auto; lia|].
      destruct (IH None j ltac:(lia)) as [F [L B]].
      repeat split; simpl; auto; [lia|discriminate].
Qed.

Lemma rmatch_rep_strong p lo hi s env k e :
  rmatch (Rep p lo hi) s env k = Some e ->
  exists j, (lo <= j <= run_len p hi s)%nat /\ k (skipn j s) env = Some e.
Proof.
  simpl. destruct (Nat.ltb (run_len p hi s) lo) eqn:L; [discriminate|].
  apply Nat.ltb_ge in L. intros H.
  destruct (rep_back_inv _ _ _ _ _ _ L H) as [j [Hj Hk]]. eauto.
Qed.

Lemma grp_capture (a s' : pstr) :
  firstn (List.length (a ++ s') - List.length s')%nat (a ++ s') = a.
Proof.
  rewrite length_app, Nat.add_sub, firstn_app, Nat.sub_diag, firstn_O, app_nil_r.
  apply firstn_all.
Qed.

Lemma grp_capture_skipn (j : nat) (s : pstr) :
  (j <= List.length s)%nat ->
  firstn (List.length s - List.length (skipn j s))%nat s = firstn j s.
Proof. intros L. rewrite length_skipn. f_equal. lia. Qed.

(** The common tail of the two response patterns: [(?P<text>.+)$]. *)
Lemma rmatch_text_eol s env e :
  rmatch (Cat (Grp "text" (Rep is_any 1 None)) Eol) s env (fun _ env => Some env) = Some e ->
  exists t rest, s = t ++ rest /\ t <> [] /\ Forall (fun c => is_any c = true) t /\
    (rest = [] \/ rest = [10]) /\ e = ("text"%string, t) :: env.
Proof.
  rewrite rmatch_cat, rmatch_grp. intros H.
  apply rmatch_rep_strong in H. destruct H as [j [Hj H]].
  apply rmatch_eol_inv in H. destruct H as [Hrest H]. inversion H; subst; clear H.
  destruct (run_len_spec _ _ _ _ (proj2 Hj)) as [F [L _]].
  exists (firstn j s), (skipn j s).
  assert (Hs : s = firstn j s ++ skipn j s) by (symmetry; apply firstn_skipn).
  repeat split; auto.
  - destruct s as [|c s]; simpl in L; [lia|]. destruct j; [lia|]. discriminate.
  - rewrite grp_capture_skipn by exact L. reflexivity.
Qed.

(** [\s(?P<text>.+)$], the tail of [_SMTP_RESPONSE_PATTERN]. *)
Lemma response_tail s env0 e :
  rmatch (Cat (Cls is_space) (Cat (Grp "text" (Rep is_any 1 None)) Eol)) s env0
    (fun _ env => Some env) = Some e ->
  exists w t rest, s = w :: t ++ rest /\ is_space w = true /\ t <> [] /\
    Forall (fun c => is_any c = true) t /\ (rest = [] \/ rest = [10]) /\
    e = ("text"%string, t) :: env0.
Proof.
  rewrite rmatch_cat. intros H.
  apply rmatch_cls_inv in H. destruct H as [w [s' [-> [Hw H]]]].
  apply rmatch_text_eol in H. destruct H as [t [rest [-> [Ht [Fa [Hr ->]]]]]].
  exists w, t, rest. auto 7.
Qed.

(** Everything [_SMTP_RESPONSE_PATTERN] accepts, with its captures. *)
Lemma response_match_shape l env :
  re_match SMTP_RESPONSE_PATTERN l = Some env ->
  exists sc w t rest,
    List.length sc = 3%nat /\ Forall (fun c => is_digit c = true) sc /\
    is_space w = true /\ t <> [] /\ Forall (fun c => is_any c = true) t /\
    (rest = [] \/ rest = [10]) /\
    ((exists w' d1 d2 d3,
         is_space w' = true /\ is_digit d1 = true /\ is_digit d2 = true /\ is_digit d3 = true /\
         l = sc ++ [w'; d1; 46; d2; 46; d3] ++ w :: t ++ rest /\
         env = [("text"%string, t); ("enhanced_status_code"%string, [d1; 46; d2; 46; d3]);
                ("status_code"%string, sc)])
     \/ (l = sc ++ w :: t ++ rest /\
         env = [("text"%string, t); ("status_code"%string, sc)])).
Proof.
  unfold re_match, SMTP_RESPONSE_PATTERN. intros H.
  rewrite rmatch_cat, rmatch_grp in H.
  apply rmatch_rep_strong in H. destruct H as [j [Hj H]].
  destruct (run_len_spec _ _ _ _ (proj2 Hj)) as [Fd [L B]].
  specialize (B 3%nat eq_refl). assert (j = 3%nat) by lia. subst j.
  assert (Hl : l = firstn 3 l ++ skipn 3 l) by (symmetry; apply firstn_skipn).
  rewrite grp_capture_skipn in H by exact L.
  assert (Lsc : List.length (firstn 3 l) = 3%nat) by (rewrite length_firstn; lia).
  revert H Hl Fd Lsc. generalize (firstn 3 l) (skipn 3 l). intros sc s1 H Hl Fd Lsc.
  rewrite rmatch_cat, rmatch_opt in H.
  match type of H with
  | match ?m with Some _ => _ | None => _ end = _ => destruct m eqn:E
  end.
  - injection H as <-. rewrite rmatch_cat in E.
    apply rmatch_cls_inv in E. destruct E as [w' [s2 [-> [Hw' E]]]].
    rewrite rmatch_grp in E. unfold digit, dot in E.
    rewrite rmatch_cat in E. apply rmatch_cls_inv in E. destruct E as [d1 [s3 [-> [H1 E]]]].
    rewrite rmatch_cat in E. apply rmatch_cls_inv in E. destruct E as [c1 [s4 [-> [Hc1 E]]]].
    rewrite rmatch_cat in E. apply rmatch_cls_inv in E. destruct E as [d2 [s5 [-> [H2 E]]]].
    rewrite rmatch_cat in E. apply rmatch_cls_inv in E. destruct E as [c2 [s6 [-> [Hc2 E]]]].
    apply rmatch_cls_inv in E. destruct E as [d3 [s7 [-> [H3 E]]]].
    apply N.eqb_eq in Hc1, Hc2. subst c1 c2.
    change (d1 :: 46 :: d2 :: 46 :: d3 :: s7) with ([d1; 46; d2; 46; d3] ++ s7) in E.
    rewrite grp_capture in E.
    apply response_tail in E. destruct E as [w [t [rest [-> [Hw [Ht [Fa [Hr ->]]]]]]]].
    exists sc, w, t, rest. repeat split; auto.
    left. exists w', d1, d2, d3. repeat split; auto.
  - apply response_tail in H. destruct H as [w [t [rest [-> [Hw [Ht [Fa [Hr ->]]]]]]]].
    exists sc, w, t, rest. repeat split; auto.
Qed.

Section Enhanced.
Variable CLASS_TO_TEXT : pstr -> option pstr.
Variable SUBJECT_TO_TEXT : pstr -> option pstr.
Variable SUBJECT_DETAIL_TO_TEXT : pstr * pstr -> option pstr.

Lemma build_enhanced_digits d1 d2 d3 :
  is_digit d1 = true -> is_digit d2 = true -> is_digit d3 = true ->
  build_enhanced CLASS_TO_TEXT SUBJECT_TO_TEXT SUBJECT_DETAIL_TO_TEXT (Some [d1; 46; d2; 46; d3]) =
  Some {| original := [d1; 46; d2; 46; d3];
          class_ := Some [d1]; class_text := CLASS_TO_TEXT [d1];
          subject := Some [d2]; subject_text := SUBJECT_TO_TEXT [d2];
          detail := Some [d3]; detail_text := SUBJECT_DETAIL_TO_TEXT ([d2], [d3]) |}.
Proof.
  intros H1 H2 H3. unfold build_enhanced, re_match, ENHANCED_STATUS_CODE_PATTERN, dot.
  simpl. rewrite H1. simpl. rewrite H2. simpl. rewrite H3. reflexivity.
Qed.

End Enhanced.

(** ** The responses the loop builds *)

Section Wellformed.

Variable CT ST : pstr -> option pstr.
Variable SDT : pstr * pstr -> option pstr.
Variable up : pstr -> pstr.

(** A response as lines 76-84 build it from a final line. *)
Definition wf_response (r : SMTPResponse) : Prop :=
  List.length (status_code r) = 3%nat /\ Forall (fun c => is_digit c = true) (status_code r) /\
  (exists ls t, lines r = ls ++ [t] /\ t <> []) /\
  (enhanced_status_code r = None \/
   exists d1 d2 d3, is_digit d1 = true /\ is_digit d2 = true /\ is_digit d3 = true /\
     enhanced_status_code r =
       Some {| original := [d1; 46; d2; 46; d3];
               class_ := Some [d1]; class_text := CT [d1];
               subject := Some [d2]; subject_text := ST [d2];
               detail := Some [d3]; detail_text := SDT ([d2], [d3]) |}).

Definition wf_exchange (ex : SMTPExchange) : Prop :=
  exists r, response ex = Some r /\ wf_response r.

Lemma step_wf l st st' :
  step CT ST SDT up l st = Some st' ->
  Forall wf_exchange (smtp_exchange_list st) -> Forall wf_exchange (smtp_exchange_list st').
Proof.
  unfold step.
  destruct (re_match SMTP_RESPONSE_PATTERN l) as [g|] eqn:G.
  - intros H HF; inversion H; subst; clear H; simpl.
    apply Forall_app; split; [exact HF|]. constructor; [|constructor].
    eexists; split; [reflexivity|].
    apply response_match_shape in G.
    destruct G as [sc [w [t [rest [L [Fd [Hw [Ht [Fa [Hr G]]]]]]]]]].
    destruct G as [[w' [d1 [d2 [d3 [Hw' [H1 [H2 [H3 [Hl ->]]]]]]]]] | [Hl ->]];
      unfold wf_response; cbn -[build_enhanced].
    + rewrite build_enhanced_digits by assumption.
      repeat split; auto; [eauto|]. right. exists d1, d2, d3. auto.
    + repeat split; auto. eauto.
  - destruct (re_match SMTP_MULTILINE_RESPONSE_PATTERN l);
      [|destruct (re_match SMTP_COMMAND_PATTERN l); [|discriminate]];
      intros H; inversion H; subst; simpl; auto.
Qed.

Lemma run_wf ls st st' :
  run CT ST SDT up ls st = inl st' ->
  Forall wf_exchange (smtp_exchange_list st) -> Forall wf_exchange (smtp_exchange_list st').
Proof.
  revert st. induction ls as [|l ls IH]; intros st H; simpl in H.
  - inversion H; subst. auto.
  - destruct (step CT ST SDT up l st) as [st1|] eqn:E; [|discriminate].
    intros HF. apply (IH _ H). exact (step_wf _ _ _ E HF).
Qed.

Lemma parse_wf t exs x :
  parse_transcript CT ST SDT up t = Ok exs x -> Forall wf_exchange exs.
Proof.
  intros H. destruct (parse_ok_cases _ _ _ _ _ _ _ H) as [st [R [-> _]]].
  apply (run_wf _ _ _ R). constructor.
Qed.

End Wellformed.

Lemma join_space_last ls t : exists p, join_space (ls ++ [t]) = p ++ t.
Proof.
  induction ls as [|l ls IH].
  - exists []. reflexivity.
  - destruct IH as [p Hp]. simpl. rewrite Hp.
    destruct (ls ++ [t]) eqn:E; [destruct ls; discriminate|].
    exists (l ++ [32] ++ p). rewrite <- !app_assoc. reflexivity.
Qed.

Lemma wf_response_text CT ST SDT r :
  wf_response CT ST SDT r ->
  response_text_of r = Some (join_space (lines r)) /\ join_space (lines r) <> [].
Proof.
  intros [_ [_ [[ls [t [Hl Ht]]] _]]].
  destruct (join_space_last ls t) as [p Hp].
  unfold response_text_of. rewrite Hl. split.
  - destruct (ls ++ [t]) eqn:E; [destruct ls; discriminate|reflexivity].
  - rewrite Hp. intros E. apply (f_equal (@List.length N)) in E. rewrite length_app in E.
    destruct t; [contradiction|simpl in E; lia].
Qed.

Lemma parse_error_fields CT ST SDT up t exs x :
  parse_transcript CT ST SDT up t = Ok exs x ->
  no_errors x \/
  exists pre ex r post,
    exs = pre ++ ex :: post /\ response ex = Some r /\ wf_response CT ST SDT r /\
    error_code x = Some (fst (reported_error r)) /\
    error_message x = Some (join_space (lines r)) /\ join_space (lines r) <> [] /\
    error_type x = Some NO_MESSAGE_QUEUED.
Proof.
  intros H. pose proof (parse_wf _ _ _ _ _ _ _ H) as W.
  destruct (parse_ok_cases _ _ _ _ _ _ _ H) as [st [R [-> Hx]]].
  pose proof (run_no_errors _ _ _ _ _ _ R) as N0.
  destruct (truthy (queue_id (extra_exchange_data st))); subst x; [left; exact N0|].
  destruct (error_scan_spec (smtp_exchange_list st) (extra_exchange_data st))
    as [[pre [ex [r [post [E [Rr [Er [F S]]]]]]]] | [F S]]; rewrite S; [|left; exact N0].
  right. rewrite Forall_forall in W.
  destruct (W ex) as [r' [Rr' Wr]]; [rewrite E; apply in_or_app; right; left; reflexivity|].
  rewrite Rr in Rr'. injection Rr' as <-.
  destruct (wf_response_text _ _ _ _ Wr) as [Tx Tn].
  exists pre, ex, r, post.
  refine (conj E (conj Rr (conj Wr (conj eq_refl (conj _ (conj Tn eq_refl)))))).
  unfold set_error; cbn [error_message]. unfold reported_error. rewrite Tx.
  destruct (enhanced_error r); [|reflexivity]. simpl.
  destruct (join_space (lines r)); [contradiction|reflexivity].
Qed.

(** ** How the loop pairs requests, continuation lines and final lines *)

Section Pairing.

Variable CT ST : pstr -> option pstr.
Variable SDT : pstr * pstr -> option pstr.
Variable up : pstr -> pstr.

Local Abbreviation step := (step CT ST SDT up).
Local Abbreviation run := (run CT ST SDT up).

Lemma run_app a b st st' :
  run (a ++ b) st = inl st' -> exists st1, run a st = inl st1 /\ run b st1 = inl st'.
Proof.
  revert st. induction a as [|l a IH]; intros st H; simpl in *.
  - eauto.
  - destruct (step l st) as [st0|]; [|discriminate]. exact (IH _ H).
Qed.

Lemma step_prefix l st st' :
  step l st = Some st' -> exists suf, smtp_exchange_list st' = smtp_exchange_list st ++ suf.
Proof.
  unfold step.
  destruct (re_match SMTP_RESPONSE_PATTERN l).
  - intros H; inversion H; subst; simpl. eauto.
  - destruct (re_match SMTP_MULTILINE_RESPONSE_PATTERN l);
      [|destruct (re_match SMTP_COMMAND_PATTERN l); [|discriminate]];
      intros H; inversion H; subst; simpl; exists []; rewrite app_nil_r; reflexivity.
Qed.

Lemma run_prefix ls st st' :
  run ls st = inl st' -> exists suf, smtp_exchange_list st' = smtp_exchange_list st ++ suf.
Proof.
  revert st. induction ls as [|l ls IH]; intros st H; simpl in H.
  - inversion H; subst. exists []. rewrite app_nil_r. reflexivity.
  - destruct (step l st) as [st1|] eqn:E; [|discriminate].
    destruct (step_prefix _ _ _ E) as [s1 H1]. destruct (IH _ H) as [s2 H2].
    exists (s1 ++ s2). rewrite H2, H1, app_assoc. reflexivity.
Qed.

Lemma step_final l g st st' :
  re_match SMTP_RESPONSE_PATTERN l = Some g -> step l st = Some st' ->
  smtp_exchange_list st' =
    smtp_exchange_list st ++
      [{| request := smtp_request st;
          response := Some {| status_code := group_str g "status_code";
                              enhanced_status_code :=
                                build_enhanced CT ST SDT (group g "enhanced_status_code");
                              lines := response_lines st ++ [group_str g "text"] |} |}] /\
  smtp_request st' = None /\ response_lines st' = [].
Proof.
  intros G. unfold step. rewrite G. intros H; inversion H; subst; simpl. auto.
Qed.

Lemma run_after_final pre lf st st' :
  is_final_line lf = true -> run (pre ++ [lf]) st = inl st' ->
  smtp_request st' = None /\ response_lines st' = [].
Proof.
  intros F H. apply run_app in H. destruct H as [st1 [_ H]].
  simpl in H. unfold is_final_line in F.
  destruct (re_match SMTP_RESPONSE_PATTERN lf) as [g|] eqn:G; [|discriminate].
  destruct (step lf st1) as [st2|] eqn:E; [|discriminate].
  injection H as <-. destruct (step_final _ _ _ _ G E) as [_ [R L]]. auto.
Qed.

Lemma step_nonfinal l st st' :
  is_final_line l = false -> step l st = Some st' ->
  smtp_exchange_list st' = smtp_exchange_list st /\
  smtp_request st' =
    match command_of_line up l with Some v => Some v | None => smtp_request st end /\
  response_lines st' = response_lines st ++ continuation_texts l.
Proof.
  unfold is_final_line, step, command_of_line, continuation_texts.
  destruct (re_match SMTP_RESPONSE_PATTERN l); [discriminate|]. intros _.
  destruct (re_match SMTP_MULTILINE_RESPONSE_PATTERN l).
  - intros H; inversion H; subst; simpl. auto.
  - destruct (re_match SMTP_COMMAND_PATTERN l); [|discriminate].
    intros H; inversion H; subst; simpl. rewrite app_nil_r. auto.
Qed.

Lemma run_nonfinal seg st st' :
  forallb (fun l => negb (is_final_line l)) seg = true -> run seg st = inl st' ->
  smtp_exchange_list st' = smtp_exchange_list st /\
  smtp_request st' = last_some (map (command_of_line up) seg) (smtp_request st) /\
  response_lines st' = response_lines st ++ flat_map continuation_texts seg.
Proof.
  revert st. induction seg as [|l seg IH]; intros st F H; simpl in *.
  - inversion H; subst. rewrite app_nil_r. auto.
  - apply andb_prop in F. destruct F as [F1 F2]. apply negb_true_iff in F1.
    destruct (step l st) as [st1|] eqn:E; [|discriminate].
    destruct (step_nonfinal _ _ _ F1 E) as [X1 [R1 L1]].
    destruct (IH _ F2 H) as [X2 [R2 L2]].
    unfold last_some in *. simpl.
    rewrite X2, X1, R2, R1, L2, L1, app_assoc. auto.
Qed.

End Pairing.

(** ** Malformed lines *)

Section Failure.

Variable CT ST : pstr -> option pstr.
Variable SDT : pstr * pstr -> option pstr.
Variable up : pstr -> pstr.

Local Abbreviation step := (step CT ST SDT up).
Local Abbreviation run := (run CT ST SDT up).

Lemma step_none l st : step l st = None <-> is_malformed_line l = true.
Proof.
  unfold step, is_malformed_line.
  destruct (re_match SMTP_RESPONSE_PATTERN l); [split; discriminate|].
  destruct (re_match SMTP_MULTILINE_RESPONSE_PATTERN l); [split; discriminate|].
  destruct (re_match SMTP_COMMAND_PATTERN l); split; auto; discriminate.
Qed.

Lemma run_inr ls st m :
  run ls st = inr m <->
  exists pre post, ls = pre ++ m :: post /\
    forallb (fun l => negb (is_malformed_line l)) pre = true /\ is_malformed_line m = true.
Proof.
  revert st. induction ls as [|l ls IH]; intros st; simpl.
  - split; [discriminate|]. intros [pre [post [E _]]]. destruct pre; discriminate.
  - destruct (step l st) as [st1|] eqn:E.
    + rewrite IH. split.
      * intros [pre [post [-> [F M]]]]. exists (l :: pre), post. simpl.
        assert (is_malformed_line l = false)
          by (destruct (is_malformed_line l) eqn:B; [apply step_none with (st := st) in B; congruence|reflexivity]).
        rewrite H. auto.
      * intros [[|l' pre] [post [Heq [F M]]]]; simpl in *.
        -- injection Heq as -> ->. apply step_none with (st := st) in M. congruence.
        -- injection Heq as -> ->. apply andb_prop in F. destruct F as [_ F]. eauto.
    + apply step_none in E. split.
      * intros H; injection H as <-. exists [], ls. auto.
      * intros [[|l' pre] [post [Heq [F M]]]]; simpl in *.
        -- injection Heq as -> ->. reflexivity.
        -- injection Heq as -> ->. rewrite E in F. discriminate.
Qed.

Lemma run_app_eq a b st :
  run (a ++ b) st = match run a st with inl st1 => run b st1 | inr m => inr m end.
Proof.
  revert st. induction a as [|l a IH]; intros st; simpl; [reflexivity|].
  destruct (step l st); [apply IH|reflexivity].
Qed.

(** A line that is neither final nor malformed changes neither the
    exchanges nor the extra data. *)
Lemma step_quiet l st :
  is_final_line l = false -> is_malformed_line l = false ->
  exists st', step l st = Some st' /\
    smtp_exchange_list st' = smtp_exchange_list st /\
    extra_exchange_data st' = extra_exchange_data st.
Proof.
  unfold is_final_line, is_malformed_line, step.
  destruct (re_match SMTP_RESPONSE_PATTERN l); [discriminate|]. intros _.
  destruct (re_match SMTP_MULTILINE_RESPONSE_PATTERN l); [eauto|].
  destruct (re_match SMTP_COMMAND_PATTERN l); [eauto|discriminate].
Qed.

Lemma run_quiet ls st :
  forallb (fun l => negb (is_final_line l) && negb (is_malformed_line l)) ls = true ->
  exists st', run ls st = inl st' /\
    smtp_exchange_list st' = smtp_exchange_list st /\
    extra_exchange_data st' = extra_exchange_data st.
Proof.
  revert st. induction ls as [|l ls IH]; intros st F; simpl in *; [eauto|].
  apply andb_prop in F. destruct F as [F1 F2]. apply andb_prop in F1.
  destruct F1 as [F1 M1]. apply negb_true_iff in F1, M1.
  destruct (step_quiet l st F1 M1) as [st1 [-> [X1 E1]]].
  destruct (IH st1 F2) as [st2 [R [X2 E2]]].
  exists st2. rewrite X2, E2. auto.
Qed.

(** Two states that agree on the pending request and lines run alike: the
    exchanges they add are the same. *)
Lemma step_shift l st1 st2 a1 :
  smtp_request st1 = smtp_request st2 -> response_lines st1 = response_lines st2 ->
  step l st1 = Some a1 ->
  exists a2 d, step l st2 = Some a2 /\
    smtp_request a1 = smtp_request a2 /\ response_lines a1 = response_lines a2 /\
    smtp_exchange_list a1 = smtp_exchange_list st1 ++ d /\
    smtp_exchange_list a2 = smtp_exchange_list st2 ++ d.
Proof.
  intros Rq Ln. unfold step. rewrite Rq, Ln.
  destruct (re_match SMTP_RESPONSE_PATTERN l).
  - intros H; inversion H; subst; clear H. simpl. eauto 8.
  - destruct (re_match SMTP_MULTILINE_RESPONSE_PATTERN l) as [g|].
    + intros H; injection H as <-. eexists; exists [].
      split; [reflexivity|]. simpl. rewrite !app_nil_r. auto.
    + destruct (re_match SMTP_COMMAND_PATTERN l) as [g|]; [|discriminate].
      intros H; injection H as <-. eexists; exists [].
      split; [reflexivity|]. simpl. rewrite !app_nil_r. auto.
Qed.

Lemma run_shift ls st1 st2 a1 :
  smtp_request st1 = smtp_request st2 -> response_lines st1 = response_lines st2 ->
  run ls st1 = inl a1 ->
  exists a2 d, run ls st2 = inl a2 /\
    smtp_exchange_list a1 = smtp_exchange_list st1 ++ d /\
    smtp_exchange_list a2 = smtp_exchange_list st2 ++ d.
Proof.
  revert st1 st2. induction ls as [|l ls IH]; intros st1 st2 Rq Ln H; simpl in *.
  - inversion H; subst. exists st2, []. rewrite !app_nil_r. auto.
  - destruct (step l st1) as [b1|] eqn:E; [|discriminate].
    destruct (step_shift _ _ _ _ Rq Ln E) as [b2 [d1 [E2 [Rq' [Ln' [X1 X2]]]]]].
    rewrite E2.
    destruct (IH _ _ Rq' Ln' H) as [a2 [d2 [R2 [Y1 Y2]]]].
    exists a2, (d1 ++ d2). rewrite Y1, Y2, X1, X2, !app_assoc. auto.
Qed.

End Failure.

(** ** Line splitting of joined lines *)

Lemma splitlines_go_plain l rest cur :
  forallb (fun c => negb (is_linebreak c)) l = true ->
  splitlines_go (l ++ rest) cur = splitlines_go rest (rev l ++ cur).
Proof.
  revert cur. induction l as [|c l IH]; intros cur F; [reflexivity|].
  simpl in F. apply andb_prop in F. destruct F as [F1 F2]. apply negb_true_iff in F1.
  change ((c :: l) ++ rest) with (c :: (l ++ rest)).
  rewrite splitlines_go_cons, F1, IH by exact F2.
  simpl rev. rewrite <- app_assoc. reflexivity.
Qed.

Lemma splitlines_go_lf rest cur :
  splitlines_go (10 :: rest) cur = rev cur :: splitlines_go rest [].
Proof. rewrite splitlines_go_cons. destruct rest; reflexivity. Qed.

Lemma splitlines_go_crlf rest cur :
  splitlines_go (13 :: 10 :: rest) cur = rev cur :: splitlines_go rest [].
Proof. rewrite splitlines_go_cons. reflexivity. Qed.

Lemma splitlines_terminated sep ls :
  (sep = [10] \/ sep = [13; 10]) ->
  Forall (fun l => forallb (fun c => negb (is_linebreak c)) l = true) ls ->
  splitlines (flat_map (fun l => l ++ sep) ls) = ls.
Proof.
  intros Hsep F. unfold splitlines.
  induction F as [|l ls Fl F IH]; [reflexivity|].
  cbn [flat_map]. rewrite <- app_assoc, splitlines_go_plain by exact Fl.
  rewrite app_nil_r.
  destruct Hsep as [-> | ->]; cbn [app];
    [rewrite splitlines_go_lf|rewrite splitlines_go_crlf];
    rewrite rev_involutive, IH; reflexivity.
Qed.

(** Splitting distributes over a cut just after a [\n]. *)
Lemma splitlines_go_cut s rest cur :
  splitlines_go (s ++ 10 :: rest) cur = splitlines_go (s ++ [10]) cur ++ splitlines_go rest [].
Proof.
  revert cur.
  induction s as [s IH] using (induction_ltof1 _ (@List.length N)).
  unfold ltof in IH.
  intros cur. destruct s as [|c s]; cbn [app].
  - rewrite !splitlines_go_lf. reflexivity.
  - rewrite !splitlines_go_cons.
    destruct (is_linebreak c); [|apply IH; simpl; lia].
    destruct s as [|c2 s]; cbn [app]; cbv beta iota.
    + destruct ((c =? 13) && (10 =? 10)); [reflexivity|].
      rewrite !splitlines_go_lf. reflexivity.
    + destruct ((c =? 13) && (c2 =? 10)).
      * rewrite IH by (simpl; lia). reflexivity.
      * change (c2 :: s ++ 10 :: rest) with ((c2 :: s) ++ 10 :: rest).
        change (c2 :: s ++ [10]) with ((c2 :: s) ++ [10]).
        rewrite IH by (simpl; lia). reflexivity.
Qed.

(** ** Queued-as lines, command lines and response texts *)

(** Whatever a pattern matches is a prefix of the input. *)
Lemma rmatch_cont r s env k e :
  rmatch r s env k = Some e -> exists a s' env', s = a ++ s' /\ k s' env' = Some e.
Proof.
  revert s env k. induction r as [p|p lo hi|r1 IH1 r2 IH2|r IH|n r IH|];
    intros s env k H.
  - apply rmatch_cls_inv in H. destruct H as [c [s' [-> [_ H]]]].
    exists [c], s', env. auto.
  - apply rmatch_rep_strong in H. destruct H as [j [_ H]].
    exists (firstn j s), (skipn j s), env. rewrite firstn_skipn. auto.
  - rewrite rmatch_cat in H. apply IH1 in H. destruct H as [a1 [s1 [env1 [-> H]]]].
    apply IH2 in H. destruct H as [a2 [s2 [env2 [-> H]]]].
    exists (a1 ++ a2), s2, env2. rewrite app_assoc. auto.
  - rewrite rmatch_opt in H.
    destruct (rmatch r s env k) eqn:E.
    + injection H as <-. exact (IH _ _ _ E).
    + exists [], s, env. auto.
  - rewrite rmatch_grp in H. apply IH in H. destruct H as [a [s' [env' [-> H]]]]. eauto.
  - apply rmatch_eol_inv in H. destruct H as [_ H]. exists [], s, env. auto.
Qed.

Lemma rmatch_lit_inv (w : string) s env k e :
  rmatch (lit w) s env k = Some e -> exists s', s = str w ++ s' /\ k s' env = Some e.
Proof.
  revert s. induction w as [|c w IH]; intros s H.
  - change (lit "") with (Opt (Cls (fun _ => false))) in H. rewrite rmatch_opt in H.
    exists s. split; [reflexivity|]. destruct s; simpl in H; exact H.
  - destruct w as [|c' w'].
    + apply rmatch_cls_inv in H. destruct H as [c0 [s' [-> [Hc H]]]].
      apply N.eqb_eq in Hc. subst. exists s'. auto.
    + change (lit (String c (String c' w'))) with
        (Cat (Cls (N.eqb (N_of_ascii c))) (lit (String c' w'))) in H.
      rewrite rmatch_cat in H. apply rmatch_cls_inv in H.
      destruct H as [c0 [s1 [-> [Hc H]]]]. apply N.eqb_eq in Hc. subst.
      apply IH in H. destruct H as [s' [-> H]]. exists s'. auto.
Qed.

(** [(?P<n>.+)$] with any group name. *)
Lemma rmatch_any_eol n s env e :
  rmatch (Cat (Grp n (Rep is_any 1 None)) Eol) s env (fun _ env => Some env) = Some e ->
  exists t rest, s = t ++ rest /\ t <> [] /\ Forall (fun c => is_any c = true) t /\
    (rest = [] \/ rest = [10]) /\ e = (n, t) :: env.
Proof.
  rewrite rmatch_cat, rmatch_grp. intros H.
  apply rmatch_rep_strong in H. destruct H as [j [Hj H]].
  apply rmatch_eol_inv in H. destruct H as [Hrest H]. inversion H; subst; clear H.
  destruct (run_len_spec _ _ _ _ (proj2 Hj)) as [F [L _]].
  exists (firstn j s), (skipn j s).
  repeat split; auto.
  - symmetry. apply firstn_skipn.
  - destruct s as [|c s]; simpl in L; [lia|]. destruct j; [lia|]. discriminate.
  - rewrite grp_capture_skipn by exact L. reflexivity.
Qed.

Lemma queued_match_shape l env :
  re_match SMTP_QUEUED_AS_PATTERN l = Some env ->
  exists m q rest, l = str "250" ++ m ++ str "queued as " ++ q ++ rest /\
    q <> [] /\ (rest = [] \/ rest = [10]) /\ group env "queue_id" = Some q.
Proof.
  unfold re_match, SMTP_QUEUED_AS_PATTERN. intros H.
  rewrite rmatch_cat in H. apply rmatch_lit_inv in H. destruct H as [s1 [-> H]].
  rewrite rmatch_cat in H. apply rmatch_cont in H. destruct H as [a1 [s2 [env2 [-> H]]]].
  rewrite rmatch_cat in H. apply rmatch_cont in H. destruct H as [a2 [s3 [env3 [-> H]]]].
  rewrite rmatch_cat in H. apply rmatch_cont in H. destruct H as [a3 [s4 [env4 [-> H]]]].
  rewrite rmatch_cat in H. apply rmatch_lit_inv in H. destruct H as [s5 [-> H]].
  apply rmatch_any_eol in H. destruct H as [q [rest [-> [Hq [_ [Hr ->]]]]]].
  exists (a1 ++ a2 ++ a3), q, rest. rewrite <- !app_assoc. auto.
Qed.

(** The lines of a final or continuation line: its text is never empty. *)
Lemma text_capture_nonempty r l env :
  (r = SMTP_RESPONSE_PATTERN \/ r = SMTP_MULTILINE_RESPONSE_PATTERN) ->
  re_match r l = Some env ->
  exists t, group env "text" = Some t /\ t <> [] /\ Forall (fun c => is_any c = true) t.
Proof.
  intros [-> | ->].
  - intros H. apply response_match_shape in H.
    destruct H as [sc [w [t [rest [_ [_ [_ [Ht [Fa [_ G]]]]]]]]]].
    exists t. destruct G as [[w' [d1 [d2 [d3 [_ [_ [_ [_ [_ ->]]]]]]]]] | [_ ->]]; auto.
  - unfold re_match, SMTP_MULTILINE_RESPONSE_PATTERN. intros H.
    rewrite rmatch_cat in H. apply rmatch_cont in H. destruct H as [a1 [s1 [env1 [-> H]]]].
    rewrite rmatch_cat in H. apply rmatch_cont in H. destruct H as [a2 [s2 [env2 [-> H]]]].
    rewrite rmatch_cat in H. apply rmatch_lit_inv in H. destruct H as [s3 [-> H]].
    apply rmatch_any_eol in H. destruct H as [t [rest [-> [Ht [Fa [_ ->]]]]]].
    exists t. auto.
Qed.

(** Everything [_SMTP_COMMAND_PATTERN] accepts: a non-empty space-free
    word, then nothing or one space and a non-empty rest. *)
Lemma command_match_shape l env :
  re_match SMTP_COMMAND_PATTERN l = Some env ->
  exists c rest, c <> [] /\ Forall (fun ch => is_not_space_char ch = true) c /\
    ((l = c ++ rest /\ (rest = [] \/ rest = [10]) /\ env = [("command"%string, c)])
     \/ (exists a, a <> [] /\ Forall (fun ch => is_any ch = true) a /\
          l = c ++ 32 :: a ++ rest /\ (rest = [] \/ rest = [10]) /\
          env = [("arguments"%string, a); ("command"%string, c)])).
Proof.
  unfold re_match, SMTP_COMMAND_PATTERN. intros H.
  rewrite rmatch_cat, rmatch_grp in H.
  apply rmatch_rep_strong in H. destruct H as [j [Hj H]].
  destruct (run_len_spec _ _ _ _ (proj2 Hj)) as [F [L _]].
  assert (Hl : l = firstn j l ++ skipn j l) by (symmetry; apply firstn_skipn).
  assert (Hc : firstn j l <> []).
  { destruct l as [|c0 l']; simpl in L; [lia|]. destruct j; [lia|]. discriminate. }
  rewrite grp_capture_skipn in H by exact L.
  revert H Hl F Hc. generalize (firstn j l) (skipn j l). intros c s1 H Hl F Hc.
  rewrite rmatch_cat, rmatch_opt in H.
  match type of H with
  | match ?m with Some _ => _ | None => _ end = _ => destruct m eqn:E
  end.
  - injection H as <-. rewrite rmatch_cat in E. simpl lit in E.
    apply rmatch_cls_inv in E. destruct E as [sp [s2 [-> [Hsp E]]]].
    apply N.eqb_eq in Hsp. subst sp.
    change (Grp "arguments" (Rep is_any 1 None)) with
      (Grp "arguments" (Rep is_any 1 None)) in E.
    rewrite rmatch_grp in E. apply rmatch_rep_strong in E. destruct E as [i [Hi E]].
    apply rmatch_eol_inv in E. destruct E as [Hr E]. injection E as <-.
    destruct (run_len_spec _ _ _ _ (proj2 Hi)) as [Fa [La _]].
    exists c, (skipn i s2). split; [exact Hc|]. split; [exact F|]. right.
    exists (firstn i s2). repeat split; auto.
    + destruct s2 as [|c0 s2']; simpl in La; [lia|]. destruct i; [lia|]. discriminate.
    + rewrite Hl. f_equal. f_equal. symmetry. apply firstn_skipn.
    + rewrite grp_capture_skipn by exact La. reflexivity.
  - apply rmatch_eol_inv in H. destruct H as [Hr H]. injection H as <-.
    exists c, s1. split; [exact Hc|]. split; [exact F|]. left. auto.
Qed.

Lemma last_some_in {A} (os : list (option A)) d v :
  last_some os d = Some v -> In (Some v) os \/ d = Some v.
Proof.
  unfold last_some. revert d. induction os as [|o os IH]; intros d H; simpl in *; auto.
  apply IH in H. destruct H as [H|H]; auto.
  destruct o; [injection H as ->; auto|auto].
Qed.

Section Invariants.

Variable CT ST : pstr -> option pstr.
Variable SDT : pstr * pstr -> option pstr.
Variable up : pstr -> pstr.

Definition good_text (ln : pstr) : Prop :=
  ln <> [] /\ Forall (fun c => is_any c = true) ln.

Definition good_request (o : option SMTPRequest) : Prop :=
  forall rq, o = Some rq ->
    exists c, command rq = up c /\ c <> [] /\
      Forall (fun ch => is_not_space_char ch = true) c /\
      (arguments_string rq = None \/ exists a, arguments_string rq = Some a /\ a <> []).

Definition good_exchange (ex : SMTPExchange) : Prop :=
  good_request (request ex) /\
  exists r, response ex = Some r /\ Forall good_text (lines r).

Definition good_state (st : loop_state) : Prop :=
  Forall good_exchange (smtp_exchange_list st) /\
  good_request (smtp_request st) /\ Forall good_text (response_lines st).

Lemma text_group_good r l g :
  (r = SMTP_RESPONSE_PATTERN \/ r = SMTP_MULTILINE_RESPONSE_PATTERN) ->
  re_match r l = Some g -> good_text (group_str g "text").
Proof.
  intros Hr G. destruct (text_capture_nonempty _ _ _ Hr G) as [t [Gt [Ht Fa]]].
  unfold group_str. rewrite Gt. split; assumption.
Qed.

Lemma step_good l st st' :
  step CT ST SDT up l st = Some st' -> good_state st -> good_state st'.
Proof.
  intros H [HX [HR HL]]. revert H. unfold step.
  destruct (re_match SMTP_RESPONSE_PATTERN l) as [g|] eqn:G.
  - intros H; injection H as <-. unfold good_state; simpl.
    split; [|split; [intros rq E; discriminate|constructor]].
    apply Forall_app. split; [exact HX|]. constructor; [|constructor].
    split; [exact HR|]. eexists; split; [reflexivity|]. simpl.
    apply Forall_app. split; [exact HL|]. constructor; [|constructor].
    exact (text_group_good _ _ _ (or_introl eq_refl) G).
  - destruct (re_match SMTP_MULTILINE_RESPONSE_PATTERN l) as [g|] eqn:G2.
    + intros H; injection H as <-. unfold good_state; simpl.
      split; [exact HX|]. split; [exact HR|].
      apply Forall_app. split; [exact HL|]. constructor; [|constructor].
      exact (text_group_good _ _ _ (or_intror eq_refl) G2).
    + destruct (re_match SMTP_COMMAND_PATTERN l) as [g|] eqn:G3; [|discriminate].
      intros H; injection H as <-. unfold good_state; simpl.
      split; [exact HX|]. split; [|exact HL].
      intros rq E. injection E as <-. simpl.
      apply command_match_shape in G3.
      destruct G3 as [c [rest [Hc [Fc [[_ [_ ->]] | [a [Ha [_ [_ [_ ->]]]]]]]]]].
      * exists c. unfold group_str. simpl. auto.
      * exists c. unfold group_str. simpl. split; [reflexivity|]. split; [exact Hc|].
        split; [exact Fc|]. right. eauto.
Qed.

Lemma run_good ls st st' :
  run CT ST SDT up ls st = inl st' -> good_state st -> good_state st'.
Proof.
  revert st. induction ls as [|l ls IH]; intros st H; simpl in H.
  - injection H as <-. auto.
  - destruct (step CT ST SDT up l st) as [st1|] eqn:E; [|discriminate].
    intros G. exact (IH _ H (step_good _ _ _ E G)).
Qed.

Lemma parse_good t exs x :
  parse_transcript CT ST SDT up t = Ok exs x -> Forall good_exchange exs.
Proof.
  intros H. destruct (parse_ok_cases _ _ _ _ _ _ _ H) as [st [R [-> _]]].
  apply (run_good _ _ _ R).
  split; [constructor|]. split; [intros rq E; discriminate|constructor].
Qed.

End Invariants.

(** ** Further properties of [parse_transcript] *)

Section Extras.

Variable CLASS_TO_TEXT : pstr -> option pstr.
Variable SUBJECT_TO_TEXT : pstr -> option pstr.
Variable SUBJECT_DETAIL_TO_TEXT : pstr * pstr -> option pstr.
Variable upper : pstr -> pstr.

(** X1: a line has the final-response shape exactly when it is a
    three-digit status code, optionally a whitespace character and a
    one-digit enhanced code d.d.d, then a whitespace character and a
    non-empty text (the line may end with one newline); the captures are
    these pieces. *)
Theorem final_line_shape l env :
  re_match SMTP_RESPONSE_PATTERN l = Some env ->
  exists sc w t rest,
    List.length sc = 3%nat /\ Forall (fun c => is_digit c = true) sc /\
    is_space w = true /\ t <> [] /\ Forall (fun c => is_any c = true) t /\
    (rest = [] \/ rest = [10]) /\
    ((exists w' d1 d2 d3,
         is_space w' = true /\ is_digit d1 = true /\ is_digit d2 = true /\ is_digit d3 = true /\
         l = sc ++ [w'; d1; 46; d2; 46; d3] ++ w :: t ++ rest /\
         env = [("text"%string, t); ("enhanced_status_code"%string, [d1; 46; d2; 46; d3]);
                ("status_code"%string, sc)])
     \/ (l = sc ++ w :: t ++ rest /\
         env = [("text"%string, t); ("status_code"%string, sc)])).
Proof. apply response_match_shape. Qed.

(** X2: every exchange of a successful call has a response whose status
    code is three ASCII digits and whose enhanced code, when present, is
    d.d.d fully split: class, subject and detail are the single digits and
    their texts the table lookups. *)
Theorem exchanges_have_split_codes t exs x :
  parse_transcript CLASS_TO_TEXT SUBJECT_TO_TEXT SUBJECT_DETAIL_TO_TEXT upper t = Ok exs x ->
  Forall (fun ex => exists r, response ex = Some r /\
    List.length (status_code r) = 3%nat /\
    Forall (fun c => is_digit c = true) (status_code r) /\
    (enhanced_status_code r = None \/
     exists d1 d2 d3, is_digit d1 = true /\ is_digit d2 = true /\ is_digit d3 = true /\
       enhanced_status_code r =
         Some {| original := [d1; 46; d2; 46; d3];
                 class_ := Some [d1]; class_text := CLASS_TO_TEXT [d1];
                 subject := Some [d2]; subject_text := SUBJECT_TO_TEXT [d2];
                 detail := Some [d3];
                 detail_text := SUBJECT_DETAIL_TO_TEXT ([d2], [d3]) |})) exs.
Proof.
  intros H. eapply Forall_impl; [|exact (parse_wf _ _ _ _ _ _ _ H)].
  intros ex [r [Rr [L [D [_ E]]]]]. exists r. auto.
Qed.

(** X3: when an error is reported, its message is the space-joined lines of
    the reporting response, which is never empty: the fallback to the
    table's detail text is never taken. *)
Theorem error_message_is_joined_lines t exs x :
  parse_transcript CLASS_TO_TEXT SUBJECT_TO_TEXT SUBJECT_DETAIL_TO_TEXT upper t = Ok exs x ->
  error_code x <> None ->
  exists pre ex r post,
    exs = pre ++ ex :: post /\ response ex = Some r /\
    error_code x = Some (fst (reported_error r)) /\
    error_message x = Some (join_space (lines r)) /\ join_space (lines r) <> [].
Proof.
  intros H C.
  destruct (parse_error_fields _ _ _ _ _ _ _ H)
    as [[_ [C0 _]] | [pre [ex [r [post [E [Rr [_ [Ec [Em [Ne _]]]]]]]]]]];
    [contradiction|].
  exists pre, ex, r, post. auto.
Qed.

(** X4: the three error fields are set together or not at all; when set,
    code and message are non-empty and the type is "No message was queued.". *)
Theorem error_fields_together t exs x :
  parse_transcript CLASS_TO_TEXT SUBJECT_TO_TEXT SUBJECT_DETAIL_TO_TEXT upper t = Ok exs x ->
  (error_code x = None /\ error_message x = None /\ error_type x = None) \/
  (exists c m, error_code x = Some c /\ c <> [] /\ error_message x = Some m /\ m <> [] /\
     error_type x = Some (str "No message was queued.")).
Proof.
  intros H.
  destruct (parse_error_fields _ _ _ _ _ _ _ H)
    as [[M [C T]] | [pre [ex [r [post [E [Rr [W [Ec [Em [Ne Et]]]]]]]]]]];
    [left; auto|right].
  exists (fst (reported_error r)), (join_space (lines r)). repeat split; auto.
  destruct W as [L [_ [_ En]]].
  unfold reported_error, enhanced_error.
  destruct En as [-> | [d1 [d2 [d3 [_ [_ [_ ->]]]]]]].
  - destruct (status_code r); [simpl in L; discriminate|]. simpl. discriminate.
  - simpl. destruct ((d1 =? 52) || (d1 =? 53)); simpl; [discriminate|].
    destruct (status_code r); [simpl in L; discriminate|]. discriminate.
Qed.

(** X5: the exchange built for a final line [l] carries the last request
    set by a command line since the previous final line (none if there is
    none), and as lines the texts of the continuation lines since the
    previous final line, in order, followed by the text of [l]; it sits at
    the index given by the number of final lines before it. *)
Theorem exchange_of_final_line t exs x pre seg l post g :
  parse_transcript CLASS_TO_TEXT SUBJECT_TO_TEXT SUBJECT_DETAIL_TO_TEXT upper t = Ok exs x ->
  splitlines t = pre ++ seg ++ l :: post ->
  (pre = [] \/ exists pre' lf, pre = pre' ++ [lf] /\ is_final_line lf = true) ->
  forallb (fun l' => negb (is_final_line l')) seg = true ->
  re_match SMTP_RESPONSE_PATTERN l = Some g ->
  nth_error exs (count_final_lines pre) =
    Some {| request := last_some (map (command_of_line upper) seg) None;
            response := Some {| status_code := group_str g "status_code";
                                enhanced_status_code :=
                                  build_enhanced CLASS_TO_TEXT SUBJECT_TO_TEXT
                                    SUBJECT_DETAIL_TO_TEXT (group g "enhanced_status_code");
                                lines := flat_map continuation_texts seg ++
                                         [group_str g "text"] |} |}.
Proof.
  intros H Hs Hpre Hseg G.
  destruct (parse_ok_cases _ _ _ _ _ _ _ H) as [stF [R [-> _]]].
  rewrite Hs in R.
  apply run_app in R. destruct R as [sA [RA R]].
  apply run_app in R. destruct R as [sB [RB R]].
  simpl in R. destruct (step _ _ _ _ l sB) as [sC|] eqn:E; [|discriminate].
  destruct (step_final _ _ _ _ _ _ _ _ G E) as [XC _].
  destruct (run_prefix _ _ _ _ _ _ _ R) as [suf Hsuf].
  destruct (run_nonfinal _ _ _ _ _ _ _ Hseg RB) as [XB [RqB LB]].
  assert (SA : smtp_request sA = None /\ response_lines sA = []).
  { destruct Hpre as [-> | [pre' [lf [-> F]]]].
    - simpl in RA. injection RA as <-. auto.
    - exact (run_after_final _ _ _ _ _ _ _ _ F RA). }
  destruct SA as [RqA LA].
  destruct (run_exchanges _ _ _ _ _ _ _ RA) as [Len _]. simpl in Len.
  rewrite Hsuf, XC, XB, RqB, LB, RqA, LA, <- Len, <- app_assoc.
  rewrite nth_error_app2, Nat.sub_diag by lia. reflexivity.
Qed.

(** X6: a call fails exactly when some line has none of the three shapes;
    the message names the first such line, and every line before it has
    one of the shapes. *)
Theorem malformed_line_error t m :
  parse_transcript CLASS_TO_TEXT SUBJECT_TO_TEXT SUBJECT_DETAIL_TO_TEXT upper t = ValueError m <->
  exists pre l post,
    splitlines t = pre ++ l :: post /\
    forallb (fun l' => negb (is_malformed_line l')) pre = true /\
    is_malformed_line l = true /\ m = MALFORMED_PREFIX ++ l.
Proof.
  unfold parse_transcript. split.
  - destruct (splitlines t) as [|l0 ls] eqn:S; [discriminate|].
    destruct (run _ _ _ _ (l0 :: ls) init_state) as [st|l] eqn:R.
    + destruct (truthy (queue_id (extra_exchange_data st))); discriminate.
    + intros Hm; injection Hm as <-.
      apply run_inr in R. destruct R as [pre [post [Hl [F M]]]].
      exists pre, l, post. auto.
  - intros [pre [l [post [S [F [M ->]]]]]]. rewrite S.
    assert (R : run CLASS_TO_TEXT SUBJECT_TO_TEXT SUBJECT_DETAIL_TO_TEXT upper
                  (pre ++ l :: post) init_state = inr l)
      by (apply run_inr; eauto).
    destruct (pre ++ l :: post) as [|l0 ls] eqn:E; [destruct pre; discriminate|].
    rewrite R. reflexivity.
Qed.

(** X7: for lines free of line boundaries, terminating each with "\r\n"
    or with "\n" gives back exactly these lines, so both transcripts
    parse alike. *)
Theorem crlf_and_lf_endings ls :
  Forall (fun l => forallb (fun c => negb (is_linebreak c)) l = true) ls ->
  splitlines (flat_map (fun l => l ++ [13; 10]) ls) = ls /\
  splitlines (flat_map (fun l => l ++ [10]) ls) = ls /\
  parse_transcript CLASS_TO_TEXT SUBJECT_TO_TEXT SUBJECT_DETAIL_TO_TEXT upper
    (flat_map (fun l => l ++ [13; 10]) ls) =
  parse_transcript CLASS_TO_TEXT SUBJECT_TO_TEXT SUBJECT_DETAIL_TO_TEXT upper
    (flat_map (fun l => l ++ [10]) ls).
Proof.
  intros F.
  assert (A : splitlines (flat_map (fun l => l ++ [13; 10]) ls) = ls)
    by (apply splitlines_terminated; auto).
  assert (B : splitlines (flat_map (fun l => l ++ [10]) ls) = ls)
    by (apply splitlines_terminated; auto).
  split; [exact A|]. split; [exact B|].
  unfold parse_transcript. rewrite A, B. reflexivity.
Qed.

(** X8: a successful call on a transcript without final response lines
    returns no exchange and default extra data. *)
Theorem no_final_line_defaults t exs x :
  parse_transcript CLASS_TO_TEXT SUBJECT_TO_TEXT SUBJECT_DETAIL_TO_TEXT upper t = Ok exs x ->
  count_final_lines (splitlines t) = 0%nat ->
  exs = [] /\ x = default_extra.
Proof.
  intros H C.
  destruct (parse_ok_cases _ _ _ _ _ _ _ H) as [st [R [-> Hx]]].
  destruct (run_exchanges _ _ _ _ _ _ _ R) as [L _].
  rewrite C in L. simpl in L.
  destruct (smtp_exchange_list st); [|discriminate]. split; [reflexivity|].
  destruct (run_extra _ _ _ _ _ _ _ R) as [Q [M [Cd T]]].
  assert (Q0 : queue_id (extra_exchange_data st) = None).
  { rewrite Q. apply last_some_nones. apply Forall_map, Forall_forall.
    intros l Hl. unfold count_final_lines in C.
    apply length_zero_iff_nil in C.
    assert (Fl : is_final_line l = false).
    { destruct (is_final_line l) eqn:F; [|reflexivity].
      assert (In l (filter is_final_line (splitlines t))) by (apply filter_In; auto).
      rewrite C in H0. contradiction. }
    unfold queued_id_of_line. unfold is_final_line in Fl.
    destruct (re_match SMTP_RESPONSE_PATTERN l); [discriminate|reflexivity]. }
  rewrite Q0 in Hx. simpl in Hx. subst x.
  destruct (extra_exchange_data st) as [q m c ty]; simpl in *. subst. rewrite Q0. reflexivity.
Qed.

(** X9: lines after the last final response line that are continuation or
    command lines are dropped: appending them changes nothing, whether the
    call succeeds or fails. *)
Theorem trailing_lines_dropped s t2 :
  forallb (fun l => negb (is_final_line l) && negb (is_malformed_line l)) (splitlines t2) = true ->
  parse_transcript CLASS_TO_TEXT SUBJECT_TO_TEXT SUBJECT_DETAIL_TO_TEXT upper (s ++ 10 :: t2) =
  parse_transcript CLASS_TO_TEXT SUBJECT_TO_TEXT SUBJECT_DETAIL_TO_TEXT upper (s ++ [10]).
Proof.
  intros F. unfold parse_transcript, splitlines at 1.
  rewrite splitlines_go_cut. fold (splitlines (s ++ [10])) (splitlines t2).
  destruct (splitlines (s ++ [10])) as [|l0 ls] eqn:S; simpl app.
  - destruct (run_quiet CLASS_TO_TEXT SUBJECT_TO_TEXT SUBJECT_DETAIL_TO_TEXT upper _ init_state F)
      as [st [R [X E]]].
    destruct (splitlines t2) as [|l1 ls1]; [reflexivity|].
    rewrite R, X, E. reflexivity.
  - cbv beta iota.
    change (l0 :: ls ++ splitlines t2) with ((l0 :: ls) ++ splitlines t2).
    rewrite run_app_eq.
    destruct (run _ _ _ _ (l0 :: ls) init_state) as [st1|m]; [|reflexivity].
    destruct (run_quiet CLASS_TO_TEXT SUBJECT_TO_TEXT SUBJECT_DETAIL_TO_TEXT upper _ st1 F)
      as [st [R [X E]]].
    rewrite R, X, E. reflexivity.
Qed.

(** X10: cutting a transcript just after a final response line, the
    exchanges of the whole are those of the first part followed by those
    of the second part parsed on its own. *)
Theorem exchanges_concat_at_final_line s t2 exs1 x1 exs2 x2 pre lf :
  parse_transcript CLASS_TO_TEXT SUBJECT_TO_TEXT SUBJECT_DETAIL_TO_TEXT upper (s ++ [10]) = Ok exs1 x1 ->
  parse_transcript CLASS_TO_TEXT SUBJECT_TO_TEXT SUBJECT_DETAIL_TO_TEXT upper t2 = Ok exs2 x2 ->
  splitlines (s ++ [10]) = pre ++ [lf] -> is_final_line lf = true ->
  exists x,
    parse_transcript CLASS_TO_TEXT SUBJECT_TO_TEXT SUBJECT_DETAIL_TO_TEXT upper (s ++ 10 :: t2) =
    Ok (exs1 ++ exs2) x.
Proof.
  intros H1 H2 S F.
  destruct (parse_ok_cases _ _ _ _ _ _ _ H1) as [st1 [R1 [-> _]]].
  destruct (parse_ok_cases _ _ _ _ _ _ _ H2) as [st2 [R2 [-> _]]].
  rewrite S in R1.
  destruct (run_after_final _ _ _ _ _ _ _ _ F R1) as [Rq Ln].
  destruct (run_shift _ _ _ _ _ init_state st1 _ (eq_sym Rq) (eq_sym Ln) R2)
    as [a2 [d [R [D1 D2]]]].
  simpl in D1. rewrite D1.
  unfold parse_transcript, splitlines at 1.
  rewrite splitlines_go_cut. fold (splitlines (s ++ [10])) (splitlines t2).
  rewrite S.
  destruct ((pre ++ [lf]) ++ splitlines t2) as [|l0 ls] eqn:E;
    [destruct pre; discriminate|].
  rewrite <- E, run_app_eq, R1, R, D2.
  destruct (truthy (queue_id (extra_exchange_data a2))); eauto.
Qed.

(** X11: a recorded queue id is the tail of a final response line of the
    transcript that starts with "250" and has "queued as " just before it. *)
Theorem queue_id_from_queued_line t exs x q :
  parse_transcript CLASS_TO_TEXT SUBJECT_TO_TEXT SUBJECT_DETAIL_TO_TEXT upper t = Ok exs x ->
  queue_id x = Some q ->
  exists l m rest, In l (splitlines t) /\ is_final_line l = true /\
    l = str "250" ++ m ++ str "queued as " ++ q ++ rest /\ (rest = [] \/ rest = [10]).
Proof.
  intros H Hq.
  destruct (parse_ok_cases _ _ _ _ _ _ _ H) as [st [R [-> Hx]]].
  assert (Q : queue_id x = queue_id (extra_exchange_data st)).
  { subst x. destruct (truthy (queue_id (extra_exchange_data st)));
      [reflexivity|apply error_scan_queue_id]. }
  destruct (run_extra _ _ _ _ _ _ _ R) as [Qr _].
  rewrite Q, Qr in Hq.
  apply last_some_in in Hq. destruct Hq as [Hin|]; [|discriminate].
  apply in_map_iff in Hin. destruct Hin as [l [Hl Hin]].
  unfold queued_id_of_line in Hl.
  destruct (re_match SMTP_RESPONSE_PATTERN l) eqn:G; [|discriminate].
  destruct (re_match SMTP_QUEUED_AS_PATTERN l) as [env|] eqn:G2; [|discriminate].
  injection Hl as Hl.
  apply queued_match_shape in G2. destruct G2 as [m [q' [rest [E [_ [Hr Gq]]]]]].
  unfold group_str in Hl. rewrite Gq in Hl. subst q'.
  exists l, m, rest. unfold is_final_line. rewrite G. auto.
Qed.

(** X12: every line of every response is a non-empty text without a
    newline (the text of a final or continuation line). *)
Theorem response_lines_nonempty t exs x :
  parse_transcript CLASS_TO_TEXT SUBJECT_TO_TEXT SUBJECT_DETAIL_TO_TEXT upper t = Ok exs x ->
  Forall (fun ex => exists r, response ex = Some r /\
    Forall (fun ln => ln <> [] /\ Forall (fun c => is_any c = true) ln) (lines r)) exs.
Proof.
  intros H. eapply Forall_impl; [|exact (parse_good _ _ _ _ _ _ _ H)].
  intros ex [_ [r [Rr F]]]. exists r. split; [exact Rr|]. exact F.
Qed.

(** X13: every request in the result is [upper] of a non-empty word
    without spaces (the command), with arguments absent or non-empty. *)
Theorem requests_are_commands t exs x :
  parse_transcript CLASS_TO_TEXT SUBJECT_TO_TEXT SUBJECT_DETAIL_TO_TEXT upper t = Ok exs x ->
  Forall (fun ex => forall rq, request ex = Some rq ->
    exists c, command rq = upper c /\ c <> [] /\
      Forall (fun ch => is_not_space_char ch = true) c /\
      (arguments_string rq = None \/ exists a, arguments_string rq = Some a /\ a <> [])) exs.
Proof.
  intros H. eapply Forall_impl; [|exact (parse_good _ _ _ _ _ _ _ H)].
  intros ex [G _]. exact G.
Qed.

(** X14: a line has the command shape exactly when it is a non-empty word
    without spaces, then either nothing or one space and a non-empty rest
    without newline (the line may end with one newline); the word is the
    command capture and the rest the arguments capture. *)
Theorem command_line_shape l env :
  re_match SMTP_COMMAND_PATTERN l = Some env ->
  exists c rest, c <> [] /\ Forall (fun ch => is_not_space_char ch = true) c /\
    ((l = c ++ rest /\ (rest = [] \/ rest = [10]) /\ env = [("command"%string, c)])
     \/ (exists a, a <> [] /\ Forall (fun ch => is_any ch = true) a /\
          l = c ++ 32 :: a ++ rest /\ (rest = [] \/ rest = [10]) /\
          env = [("arguments"%string, a); ("command"%string, c)])).
Proof. apply command_match_shape. Qed.

End Extras.

(** ** Instances of the further properties *)

Lemma final_line_shape_witness :
  exists env,
    re_match SMTP_RESPONSE_PATTERN (str "550 5.1.1 User unknown") = Some env /\
    exists sc w t rest,
      List.length sc = 3%nat /\ Forall (fun c => is_digit c = true) sc /\
      is_space w = true /\ t <> [] /\ Forall (fun c => is_any c = true) t /\
      (rest = [] \/ rest = [10]) /\
      ((exists w' d1 d2 d3,
           is_space w' = true /\ is_digit d1 = true /\ is_digit d2 = true /\
           is_digit d3 = true /\
           str "550 5.1.1 User unknown" = sc ++ [w'; d1; 46; d2; 46; d3] ++ w :: t ++ rest /\
           env = [("text"%string, t); ("enhanced_status_code"%string, [d1; 46; d2; 46; d3]);
                  ("status_code"%string, sc)])
       \/ (str "550 5.1.1 User unknown" = sc ++ w :: t ++ rest /\
           env = [("text"%string, t); ("status_code"%string, sc)])).
Proof.
  exists [("text"%string, str "User unknown"); ("enhanced_status_code"%string, str "5.1.1");
          ("status_code"%string, str "550")].
  split; [vm_compute; reflexivity|].
  apply (final_line_shape (str "550 5.1.1 User unknown")). vm_compute. reflexivity.
Defined.

Lemma exchanges_have_split_codes_witness :
  exists exs x,
    parse0 (unlines ["RCPT TO:<x>"; "550 5.1.1 User unknown"; "QUIT"; "221 bye"]%string)
      = Ok exs x /\
    Forall (fun ex => exists r, response ex = Some r /\
      List.length (status_code r) = 3%nat /\
      Forall (fun c => is_digit c = true) (status_code r) /\
      (enhanced_status_code r = None \/
       exists d1 d2 d3, is_digit d1 = true /\ is_digit d2 = true /\ is_digit d3 = true /\
         enhanced_status_code r =
           Some {| original := [d1; 46; d2; 46; d3];
                   class_ := Some [d1]; class_text := no_table [d1];
                   subject := Some [d2]; subject_text := no_table [d2];
                   detail := Some [d3];
                   detail_text := no_table2 ([d2], [d3]) |})) exs.
Proof.
  eval_parse0 (unlines ["RCPT TO:<x>"; "550 5.1.1 User unknown"; "QUIT"; "221 bye"]%string)
    exs x E.
  exact (exchanges_have_split_codes no_table no_table no_table2 (fun s => s) _ _ _ E).
Defined.

Lemma error_message_is_joined_lines_witness :
  exists exs x,
    parse0 (unlines ["550-5.1.1 first"; "550 5.1.1 second"; "250 ok"]%string) = Ok exs x /\
    error_code x <> None /\
    exists pre ex r post,
      exs = pre ++ ex :: post /\ response ex = Some r /\
      error_code x = Some (fst (reported_error r)) /\
      error_message x = Some (join_space (lines r)) /\ join_space (lines r) <> [].
Proof.
  eval_parse0 (unlines ["550-5.1.1 first"; "550 5.1.1 second"; "250 ok"]%string) exs x E.
  split; [vm_compute; discriminate|].
  pose proof (error_message_is_joined_lines no_table no_table no_table2 (fun s => s)
                (unlines ["550-5.1.1 first"; "550 5.1.1 second"; "250 ok"]%string) _ _ E) as H.
  apply H. vm_compute. discriminate.
Defined.

Lemma error_fields_together_witness :
  exists exs x,
    parse0 (unlines ["MAIL FROM:<a>"; "451 4.3.0 try later"]%string) = Ok exs x /\
    ((error_code x = None /\ error_message x = None /\ error_type x = None) \/
     (exists c m, error_code x = Some c /\ c <> [] /\ error_message x = Some m /\ m <> [] /\
        error_type x = Some (str "No message was queued."))).
Proof.
  eval_parse0 (unlines ["MAIL FROM:<a>"; "451 4.3.0 try later"]%string) exs x E.
  exact (error_fields_together no_table no_table no_table2 (fun s => s) _ _ _ E).
Defined.

Lemma exchange_of_final_line_witness :
  exists exs x,
    parse0 (unlines ["220 hi"; "EHLO a"; "ehlo b"; "250-one"; "250-two"; "250 three";
                     "QUIT"; "221 bye"]%string) = Ok exs x /\
    nth_error exs (count_final_lines [str "220 hi"]) =
      Some {| request := last_some (map (command_of_line (fun s => s))
                                      [str "EHLO a"; str "ehlo b"; str "250-one"; str "250-two"])
                           None;
              response :=
                Some {| status_code :=
                          group_str [("text"%string, str "three"); ("status_code"%string, str "250")]
                            "status_code";
                        enhanced_status_code :=
                          build_enhanced no_table no_table no_table2
                            (group [("text"%string, str "three");
                                    ("status_code"%string, str "250")] "enhanced_status_code");
                        lines := flat_map continuation_texts
                                   [str "EHLO a"; str "ehlo b"; str "250-one"; str "250-two"] ++
                                 [group_str [("text"%string, str "three");
                                             ("status_code"%string, str "250")] "text"] |} |}.
Proof.
  eval_parse0 (unlines ["220 hi"; "EHLO a"; "ehlo b"; "250-one"; "250-two"; "250 three";
                        "QUIT"; "221 bye"]%string) exs x E.
  pose proof (exchange_of_final_line no_table no_table no_table2 (fun s => s)
                (unlines ["220 hi"; "EHLO a"; "ehlo b"; "250-one"; "250-two"; "250 three";
                          "QUIT"; "221 bye"]%string) _ _
                [str "220 hi"] [str "EHLO a"; str "ehlo b"; str "250-one"; str "250-two"]
                (str "250 three") [str "QUIT"; str "221 bye"]
                [("text"%string, str "three"); ("status_code"%string, str "250")] E) as H.
  apply H.
  - vm_compute. reflexivity.
  - right. exists [], (str "220 hi"). split; [reflexivity|vm_compute; reflexivity].
  - vm_compute. reflexivity.
  - vm_compute. reflexivity.
Defined.

Lemma crlf_and_lf_endings_witness :
  Forall (fun l => forallb (fun c => negb (is_linebreak c)) l = true)
    [str "EHLO a"; str "250 ok"] /\
  splitlines (flat_map (fun l => l ++ [13; 10]) [str "EHLO a"; str "250 ok"]) =
    [str "EHLO a"; str "250 ok"] /\
  splitlines (flat_map (fun l => l ++ [10]) [str "EHLO a"; str "250 ok"]) =
    [str "EHLO a"; str "250 ok"] /\
  parse0 (flat_map (fun l => l ++ [13; 10]) [str "EHLO a"; str "250 ok"]) =
  parse0 (flat_map (fun l => l ++ [10]) [str "EHLO a"; str "250 ok"]).
Proof.
  assert (F : Forall (fun l => forallb (fun c => negb (is_linebreak c)) l = true)
                [str "EHLO a"; str "250 ok"]).
  { constructor; [vm_compute; reflexivity|]. constructor; [vm_compute; reflexivity|].
    constructor. }
  split; [exact F|].
  exact (crlf_and_lf_endings no_table no_table no_table2 (fun s => s) _ F).
Defined.

Lemma no_final_line_defaults_witness :
  exists exs x,
    parse0 (unlines ["EHLO a"; "MAIL FROM:<x>"]%string) = Ok exs x /\
    count_final_lines (splitlines (unlines ["EHLO a"; "MAIL FROM:<x>"]%string)) = 0%nat /\
    exs = [] /\ x = default_extra.
Proof.
  eval_parse0 (unlines ["EHLO a"; "MAIL FROM:<x>"]%string) exs x E.
  split; [vm_compute; reflexivity|].
  pose proof (no_final_line_defaults no_table no_table no_table2 (fun s => s)
                (unlines ["EHLO a"; "MAIL FROM:<x>"]%string) _ _ E) as H.
  apply H. vm_compute. reflexivity.
Defined.

Lemma trailing_lines_dropped_witness :
  forallb (fun l => negb (is_final_line l) && negb (is_malformed_line l))
    (splitlines (str "QUIT" ++ [10] ++ str "250-more")) = true /\
  parse0 (str "250 ok" ++ 10 :: str "QUIT" ++ [10] ++ str "250-more") =
  parse0 (str "250 ok" ++ [10]).
Proof.
  split; [vm_compute; reflexivity|].
  apply (trailing_lines_dropped no_table no_table no_table2 (fun s => s)).
  vm_compute. reflexivity.
Defined.

Lemma exchanges_concat_at_final_line_witness :
  exists exs1 x1,
    parse0 ((str "EHLO a" ++ [10] ++ str "250 hi") ++ [10]) = Ok exs1 x1 /\
    exists exs2 x2,
    parse0 (str "QUIT" ++ [10] ++ str "221 bye") = Ok exs2 x2 /\
    exists x,
      parse0 ((str "EHLO a" ++ [10] ++ str "250 hi") ++ 10 :: str "QUIT" ++ [10] ++ str "221 bye")
        = Ok (exs1 ++ exs2) x.
Proof.
  eval_parse0 ((str "EHLO a" ++ [10] ++ str "250 hi") ++ [10]) exs1 x1 E1.
  eval_parse0 (str "QUIT" ++ [10] ++ str "221 bye") exs2 x2 E2.
  pose proof (exchanges_concat_at_final_line no_table no_table no_table2 (fun s => s)
                (str "EHLO a" ++ [10] ++ str "250 hi") (str "QUIT" ++ [10] ++ str "221 bye")
                _ _ _ _ [str "EHLO a"] (str "250 hi") E1 E2) as H.
  apply H; vm_compute; reflexivity.
Defined.

Lemma queue_id_from_queued_line_witness :
  exists exs x,
    parse0 (unlines ["MAIL FROM:<a>"; "250 2.0.0 Ok: queued as ABC"]%string) = Ok exs x /\
    queue_id x = Some (str "ABC") /\
    exists l m rest,
      In l (splitlines (unlines ["MAIL FROM:<a>"; "250 2.0.0 Ok: queued as ABC"]%string)) /\
      is_final_line l = true /\
      l = str "250" ++ m ++ str "queued as " ++ str "ABC" ++ rest /\ (rest = [] \/ rest = [10]).
Proof.
  eval_parse0 (unlines ["MAIL FROM:<a>"; "250 2.0.0 Ok: queued as ABC"]%string) exs x E.
  split; [vm_compute; reflexivity|].
  pose proof (queue_id_from_queued_line no_table no_table no_table2 (fun s => s)
                (unlines ["MAIL FROM:<a>"; "250 2.0.0 Ok: queued as ABC"]%string) _ _
                (str "ABC") E) as H.
  apply H. vm_compute. reflexivity.
Defined.

Lemma response_lines_nonempty_witness :
  exists exs x,
    parse0 (unlines ["EHLO a"; "250-mx.example"; "250-SIZE 10"; "250 OK"]%string) = Ok exs x /\
    Forall (fun ex => exists r, response ex = Some r /\
      Forall (fun ln => ln <> [] /\ Forall (fun c => is_any c = true) ln) (lines r)) exs.
Proof.
  eval_parse0 (unlines ["EHLO a"; "250-mx.example"; "250-SIZE 10"; "250 OK"]%string) exs x E.
  exact (response_lines_nonempty no_table no_table no_table2 (fun s => s) _ _ _ E).
Defined.

Lemma requests_are_commands_witness :
  exists exs x,
    parse0 (unlines ["MAIL FROM:<a> SIZE=10"; "250 ok"; "DATA"; "354 go"]%string) = Ok exs x /\
    Forall (fun ex => forall rq, request ex = Some rq ->
      exists c, command rq = c /\ c <> [] /\
        Forall (fun ch => is_not_space_char ch = true) c /\
        (arguments_string rq = None \/ exists a, arguments_string rq = Some a /\ a <> [])) exs.
Proof.
  eval_parse0 (unlines ["MAIL FROM:<a> SIZE=10"; "250 ok"; "DATA"; "354 go"]%string) exs x E.
  exact (requests_are_commands no_table no_table no_table2 (fun s => s) _ _ _ E).
Defined.

Lemma command_line_shape_witness :
  exists env,
    re_match SMTP_COMMAND_PATTERN (str "MAIL FROM:<a> SIZE=10") = Some env /\
    exists c rest, c <> [] /\ Forall (fun ch => is_not_space_char ch = true) c /\
      ((str "MAIL FROM:<a> SIZE=10" = c ++ rest /\ (rest = [] \/ rest = [10]) /\
        env = [("command"%string, c)])
       \/ (exists a, a <> [] /\ Forall (fun ch => is_any ch = true) a /\
            str "MAIL FROM:<a> SIZE=10" = c ++ 32 :: a ++ rest /\ (rest = [] \/ rest = [10]) /\
            env = [("arguments"%string, a); ("command"%string, c)])).
Proof.
  exists [("arguments"%string, str "FROM:<a> SIZE=10"); ("command"%string, str "MAIL")].
  split; [vm_compute; reflexivity|].
  apply (command_line_shape (str "MAIL FROM:<a> SIZE=10")). vm_compute. reflexivity.
Defined.
